(** * JobCredits: credit extraction and the append-only credits log

    A shallow embedding of [job_portal_credits.py]: the helpers around
    [credits.json] ([load_entries], [save_entries]), the two page-text
    extractors ([extract_teamio_credits_from_page],
    [extract_inwork_credits_from_page]), the two session drivers
    ([fetch_teamio_credits], [fetch_inwork_credits]), the orchestrator
    ([collect]) and the command line ([parse_args], [main]).

    Python values are modelled as the interpreter has them: a [str] is a
    sequence of Unicode code points, an [int] is an unbounded integer, an
    exception is a class with a message.  What the script takes from the
    interpreter and from its libraries (the Unicode character database, the
    [json] codec, the browser session, the clock) enters as a parameter. *)

From Stdlib Require Import List NArith ZArith Bool Ascii String DecimalString DecimalPos Lia.
Import ListNotations.

Local Open Scope N_scope.

(** ** Python strings *)

(** A Python [str]: a sequence of code points. *)
Definition str := list N.

Fixpoint bytes_of (s : string) : list N :=
  match s with
  | EmptyString => []
  | String a s' => N_of_ascii a :: bytes_of s'
  end.

(** UTF-8 decoding of a source literal (a literal of this file is a byte
    string, a literal of the script is a code-point string). *)
Fixpoint utf8 (bs : list N) : str :=
  match bs with
  | [] => []
  | b0 :: t0 =>
      if b0 <? 128 then b0 :: utf8 t0
      else
        match t0 with
        | [] => [b0]
        | b1 :: t1 =>
            if b0 <? 224 then ((b0 - 192) * 64 + (b1 - 128)) :: utf8 t1
            else
              match t1 with
              | [] => [b0; b1]
              | b2 :: t2 =>
                  if b0 <? 240
                  then ((b0 - 224) * 4096 + (b1 - 128) * 64 + (b2 - 128)) :: utf8 t2
                  else
                    match t2 with
                    | [] => [b0; b1; b2]
                    | b3 :: t3 =>
                        ((b0 - 240) * 262144 + (b1 - 128) * 4096
                         + (b2 - 128) * 64 + (b3 - 128)) :: utf8 t3
                    end
              end
        end
  end.

Definition py (s : string) : str := utf8 (bytes_of s).

(** [a == b] *)
Fixpoint str_eqb (a b : str) : bool :=
  match a, b with
  | [], [] => true
  | x :: a', y :: b' => (x =? y) && str_eqb a' b'
  | _, _ => false
  end.

(** [s.startswith(p)] *)
Fixpoint startswith (p s : str) : bool :=
  match p, s with
  | [], _ => true
  | _ :: _, [] => false
  | a :: p', b :: s' => (a =? b) && startswith p' s'
  end.

(** ASCII views of the character classes, for code points below 128. *)
Definition ascii_isdigit (c : N) : bool := (48 <=? c) && (c <=? 57).
Definition ascii_isupper (c : N) : bool := (65 <=? c) && (c <=? 90).
Definition ascii_islower (c : N) : bool := (97 <=? c) && (c <=? 122).
Definition ascii_isalnum (c : N) : bool :=
  ascii_isdigit c || ascii_isupper c || ascii_islower c.
Definition ascii_isspace (c : N) : bool :=
  ((9 <=? c) && (c <=? 13)) || ((28 <=? c) && (c <=? 32)).
Definition ascii_lower (c : N) : N := if ascii_isupper c then c + 32 else c.

(** ** The interpreter's Unicode character database

    The script relies on it through [str.isdigit], [int], [str.lower] and
    through [re] ([\d], [\s], [\b], [re.IGNORECASE]).  The tables are a
    parameter; the laws are the ones the proofs need, and each holds of
    CPython's database. *)
Class UnicodeData := {
  (** [\d] of [re] on a [str] pattern, and the digits [int] accepts:
      category Nd. *)
  isdecimal : N -> bool;
  (** the value of a decimal digit *)
  decimal_value : N -> Z;
  (** [str.isdigit]: decimal digits and digit-like characters such as
      superscripts *)
  isdigit : N -> bool;
  (** [\s] of [re] *)
  isspace : N -> bool;
  (** [str.isalnum]; [\w] of [re] is [isalnum] or an underscore *)
  isalnum : N -> bool;
  (** [ci_match p c]: the text character [c] matches the pattern literal
      [p] under [re.IGNORECASE] *)
  ci_match : N -> N -> bool;
  (** [str.lower] *)
  lower : str -> str;

  isdecimal_ascii : forall c, c < 128 -> isdecimal c = ascii_isdigit c;
  decimal_value_ascii :
    forall c, ascii_isdigit c = true -> decimal_value c = Z.of_N (c - 48);
  decimal_value_range :
    forall c, isdecimal c = true -> (0 <= decimal_value c <= 9)%Z;
  isspace_ascii : forall c, c < 128 -> isspace c = ascii_isspace c;
  (** U+016F, LATIN SMALL LETTER U WITH RING ABOVE, is a letter *)
  isalnum_u_ring : isalnum 367 = true;
  ci_match_refl : forall p, ci_match p p = true;
  lower_ascii :
    forall s, Forall (fun c => c < 128) s -> lower s = map ascii_lower s
}.

(** The database restricted to ASCII and the Czech letter U+016F / U+016E;
    every other code point is classed as a symbol without case.  It is the
    instance at which concrete page texts are evaluated. *)
Definition czech_lower (c : N) : N :=
  if c <? 128 then ascii_lower c else if c =? 366 then 367 else c.

#[export, refine] Instance czech_ascii : UnicodeData := {|
  isdecimal c := ascii_isdigit c;
  decimal_value c := Z.of_N (c - 48);
  isdigit c := ascii_isdigit c;
  isspace c := ascii_isspace c;
  isalnum c := ascii_isalnum c || (c =? 367) || (c =? 366);
  ci_match p c := czech_lower p =? czech_lower c;
  lower s := map czech_lower s
|}.
Proof.
  all: try reflexivity.
  - intros c Hc. unfold ascii_isdigit in Hc.
    apply andb_true_iff in Hc. destruct Hc as [H1 H2].
    apply N.leb_le in H1, H2. lia.
  - intros p. apply N.eqb_refl.
  - intros s Hs. apply map_ext_in. intros c Hin.
    rewrite Forall_forall in Hs. specialize (Hs c Hin).
    unfold czech_lower. apply N.ltb_lt in Hs. rewrite Hs. reflexivity.
Defined.

(** ** Regular expressions, as [re] runs them

    The fragment of [re] syntax the script's patterns are written in, and a
    backtracking matcher with Python's priorities: leftmost start, greedy
    quantifiers, alternatives in order. *)

Inductive cclass :=
| Lit (c : N)   (* a literal character, compiled with re.IGNORECASE *)
| Digit         (* \d *)
| Space.        (* \s *)

Inductive regex :=
| Eps
| Chr (c : cclass)
| Star (c : cclass)          (* c* , greedy *)
| Plus (c : cclass)          (* c+ , greedy *)
| WordB                      (* \b *)
| Seq (a b : regex)
| Alt (a b : regex)          (* a|b *)
| Opt (a : regex)            (* a? , greedy *)
| Group (a : regex).         (* ( a ), the capturing group 1 *)

Fixpoint lits (s : str) : regex :=
  match s with
  | [] => Eps
  | c :: s' => Seq (Chr (Lit c)) (lits s')
  end.

(** A matcher position: the character before the cursor (for [\b]), the
    text from the cursor on, and what group 1 holds. *)
Record mstate := MState {
  prev : option N;
  rest : str;
  grp : option str
}.

Section Matcher.
Context `{UnicodeData}.

Definition cmatch (c : cclass) (x : N) : bool :=
  match c with
  | Lit p => ci_match p x
  | Digit => isdecimal x
  | Space => isspace x
  end.

(** [\w] *)
Definition isword (c : N) : bool := isalnum c || (c =? 95).

Definition word_at (o : option N) : bool :=
  match o with
  | Some c => isword c
  | None => false
  end.

Definition at_boundary (s : mstate) : bool :=
  xorb (word_at (prev s)) (word_at (hd_error (rest s))).

(** [c*] from a position: take characters while they match, and give
    back one at a time when the continuation fails. *)
Fixpoint star_from {A} (c : cclass) (k : mstate -> option A)
         (p : option N) (xs : str) (g : option str) : option A :=
  match xs with
  | [] => k (MState p [] g)
  | x :: xs' =>
      if cmatch c x then
        match star_from c k (Some x) xs' g with
        | Some r => Some r
        | None => k (MState p xs g)
        end
      else k (MState p xs g)
  end.

Definition captured (s s' : mstate) : str :=
  firstn (List.length (rest s) - List.length (rest s'))%nat (rest s).

Fixpoint rmatch {A} (r : regex) (k : mstate -> option A) (s : mstate)
  : option A :=
  match r with
  | Eps => k s
  | Chr c =>
      match rest s with
      | x :: xs => if cmatch c x then k (MState (Some x) xs (grp s)) else None
      | [] => None
      end
  | Star c => star_from c k (prev s) (rest s) (grp s)
  | Plus c =>
      match rest s with
      | x :: xs => if cmatch c x then star_from c k (Some x) xs (grp s) else None
      | [] => None
      end
  | WordB => if at_boundary s then k s else None
  | Seq a b => rmatch a (rmatch b k) s
  | Alt a b =>
      match rmatch a k s with
      | Some v => Some v
      | None => rmatch b k s
      end
  | Opt a =>
      match rmatch a k s with
      | Some v => Some v
      | None => k s
      end
  | Group a =>
      rmatch a (fun s' => k (MState (prev s') (rest s') (Some (captured s s')))) s
  end.

(** A match of [r] that starts exactly at the cursor; the result is what
    [m.group(1)] holds. *)
Definition match_here (r : regex) (p : option N) (xs : str)
  : option (option str) :=
  rmatch r (fun s => Some (grp s)) (MState p xs None).

(** [pattern.search(text)] from the cursor on: the leftmost start
    position at which the pattern matches. *)
Fixpoint search_from (r : regex) (p : option N) (xs : str)
  : option (option str) :=
  match match_here r p xs with
  | Some g => Some g
  | None =>
      match xs with
      | [] => None
      | x :: xs' => search_from r (Some x) xs'
      end
  end.

Definition search (r : regex) (text : str) : option (option str) :=
  search_from r None text.

End Matcher.

(** ** The patterns of the script *)

(** [word_pattern = r"(?:kredit(?:ů|y)?\b|credit(?:s)?\b)"] *)
Definition word_pattern : regex :=
  Alt (Seq (lits (py "kredit"))
           (Seq (Opt (Alt (Chr (Lit 367)) (Chr (Lit 121)))) WordB))
      (Seq (lits (py "credit"))
           (Seq (Opt (Chr (Lit 115))) WordB)).

(** [re.compile(r"(\d+)\s*" + word_pattern, re.IGNORECASE)] *)
Definition pattern_direct : regex :=
  Seq (Group (Plus Digit)) (Seq (Star Space) word_pattern).

(** [re.compile(word_pattern + r"\s*(\d+)", re.IGNORECASE)] *)
Definition pattern_reverse : regex :=
  Seq word_pattern (Seq (Star Space) (Group (Plus Digit))).

(** [INWORK_CREDITS_PATTERNS]:
    [r"Stav\s+kreditů\s*:\s*(\d+)"] and [r"\b(\d+)\s*kredit"], both with
    [re.IGNORECASE]. *)
Definition inwork_status_pattern : regex :=
  Seq (lits (py "Stav"))
      (Seq (Plus Space)
           (Seq (lits (py "kreditů"))
                (Seq (Star Space)
                     (Seq (Chr (Lit 58))
                          (Seq (Star Space) (Group (Plus Digit))))))).

Definition inwork_generic_pattern : regex :=
  Seq WordB (Seq (Group (Plus Digit)) (Seq (Star Space) (lits (py "kredit")))).

Definition INWORK_CREDITS_PATTERNS : list regex :=
  [inwork_status_pattern; inwork_generic_pattern].

(** ** Exceptions and results *)

Inductive exn_class :=
| RuntimeError
| ValueError
| TypeError
| OSError
| EOFError
| PlaywrightError.

(** What a call can raise.  [Exc] covers the subclasses of [Exception];
    [SystemExit], [KeyboardInterrupt] and [asyncio.CancelledError] derive
    from [BaseException] only. *)
Inductive exn :=
| Exc (cls : exn_class) (msg : str)
| SystemExit (status : Z)
| KeyboardInterrupt
| CancelledError.

(** [isinstance(e, Exception)]: what [except Exception] catches. *)
Definition is_Exception (e : exn) : bool :=
  match e with
  | Exc _ _ => true
  | _ => false
  end.

(** [str(e)], as [print(f"... {e}")] shows it. *)
Definition exn_str (e : exn) : str :=
  match e with
  | Exc _ msg => msg
  | SystemExit st => bytes_of (NilZero.string_of_int (Z.to_int st))
  | KeyboardInterrupt => []
  | CancelledError => []
  end.

Inductive result (A : Type) :=
| Ok (a : A)
| Raise (e : exn).
Arguments Ok {A} a.
Arguments Raise {A} e.

(** [str(n)] for an [int] *)
Definition str_of_int (z : Z) : str :=
  bytes_of (NilZero.string_of_int (Z.to_int z)).

(** ** The dataclass and the clock *)

(** A [datetime] made by [datetime.now(timezone.utc)]: aware, offset zero. *)
Record datetime := DateTime {
  year : N; month : N; day : N;
  hour : N; minute : N; second : N; microsecond : N
}.

Definition dig (n : N) : N := 48 + n mod 10.
Definition pad2 (n : N) : str := [dig (n / 10); dig n].
Definition pad4 (n : N) : str := [dig (n / 1000); dig (n / 100); dig (n / 10); dig n].
Definition pad6 (n : N) : str :=
  [dig (n / 100000); dig (n / 10000); dig (n / 1000); dig (n / 100); dig (n / 10); dig n].

(** [datetime.isoformat()]: [YYYY-MM-DDTHH:MM:SS[.ffffff]+00:00] *)
Definition isoformat (t : datetime) : str :=
  pad4 (year t) ++ [45] ++ pad2 (month t) ++ [45] ++ pad2 (day t) ++ [84]
  ++ pad2 (hour t) ++ [58] ++ pad2 (minute t) ++ [58] ++ pad2 (second t)
  ++ (if microsecond t =? 0 then [] else 46 :: pad6 (microsecond t))
  ++ py "+00:00".

Record PortalCredits := MkPortalCredits {
  portal : str;          (* "Teamio" or "InWork" *)
  credits : Z;
  timestamp : datetime
}.

(** ** JSON values and the codec *)

(** What [json.load] returns: [None], [bool], [int], [float] (kept as its
    binary64 bit pattern), [str], [list], and [dict] with its keys in
    insertion order. *)
#[warnings="-register-all"]
Inductive json :=
| JNull
| JBool (b : bool)
| JInt (z : Z)
| JFloat (bits : N)
| JStr (s : str)
| JList (l : list json)
| JDict (kv : list (str * json)).

(** The [json] module, over the text of a file.  [json_load] is [None]
    where [json.load] raises (undecodable bytes, a syntax error, nesting
    beyond the recursion limit: all of them subclasses of [Exception]);
    [json_dump v] is the text [json.dump(v, f, indent=2,
    ensure_ascii=False)] writes.  The law is the round trip of the module
    on the values it produces itself. *)
Class JsonCodec := {
  file_text : Type;
  json_load : file_text -> option json;
  json_dump : json -> file_text;
  json_load_dump : forall v, json_load (json_dump v) = Some v
}.

(** The texts of files up to what [json.load] makes of them: a document,
    or something that does not parse. *)
Inductive doc_text :=
| Document (v : json)
| Unparsable (bytes : list N).

#[export] Instance doc_codec : JsonCodec := {|
  file_text := doc_text;
  json_load t := match t with Document v => Some v | Unparsable _ => None end;
  json_dump v := Document v;
  json_load_dump v := eq_refl
|}.

(** ** The world the script runs in *)

Inductive portal_id := Teamio | InWork.

(** The awaited calls of a session driver, by their place in the source. *)
Inductive site :=
| AtPlaywright      (* async with async_playwright() *)
| AtLaunch          (* chromium.launch_persistent_context *)
| AtNewPage         (* new_page *)
| AtGoto            (* page.goto *)
| AtIdle            (* page.wait_for_load_state("networkidle") *)
| AtInput           (* input(...) *)
| AtGotoAgain       (* the second page.goto of the Teamio driver *)
| AtIdleAgain       (* and its wait_for_load_state *)
| AtClose.          (* browser.close / context.close *)

(** The page a session shows when the extractor reads it. *)
Record Page := MkPage {
  (** [await page.locator(sel).inner_text()] *)
  locator_inner_text : str -> result str;
  (** [await page.inner_text("body")] *)
  body_inner_text : result str
}.

(** What the browser and the operator do in one run of a driver. *)
Record Session := MkSession {
  fault : site -> option exn;
  page : Page;
  now : datetime
}.

Section Script.
Context `{UnicodeData} `{JsonCodec}.

Inductive event :=
| Print (line : str)
| Call (p : portal_id) (s : site)
| Write (path : str) (text : file_text).

Record World := MkWorld {
  files : str -> option file_text;
  trace : list event
}.

(** Configuration and environment of one run. *)
Record Env := MkEnv {
  TEAMIO_CREDITS_URL : str;
  TEAMIO_CREDITS_LOCATOR : option str;
  INWORK_DASHBOARD_URL : str;
  teamio_profile_exists : bool;      (* TEAMIO_PROFILE_DIR.exists() *)
  teamio_session : Session;
  inwork_session : Session;
  (** the exception raised when the log cannot be opened for writing *)
  write_fault : option exn
}.

(** State and exceptions. *)
Definition M (A : Type) := World -> World * result A.

Definition ret {A} (a : A) : M A := fun w => (w, Ok a).
Definition raise {A} (e : exn) : M A := fun w => (w, Raise e).
Definition bind {A B} (m : M A) (k : A -> M B) : M B :=
  fun w =>
    match m w with
    | (w', Ok a) => k a w'
    | (w', Raise e) => (w', Raise e)
    end.
Definition lift {A} (r : result A) : M A := fun w => (w, r).

Definition emit (e : event) : M unit :=
  fun w => (MkWorld (files w) (trace w ++ [e]), Ok tt).

Definition print (line : str) : M unit := emit (Print line).

(** [try: m  except Exception as e: h e] *)
Definition try_except {A} (m : M A) (h : exn -> M A) : M A :=
  fun w =>
    match m w with
    | (w', Raise e) => if is_Exception e then h e w' else (w', Raise e)
    | r => r
    end.

End Script.

Notation "x <- m ;; k" := (bind m (fun x => k))
  (at level 61, m at next level, right associativity).
Notation "m ;; k" := (bind m (fun _ => k))
  (at level 61, right associativity).

(** ** The script *)

Definition CREDITS_FILE_NAME : str := py "credits.json".

Section Program.
Context `{UnicodeData} `{JsonCodec}.

(** [PROJECT_ROOT / CREDITS_FILE_NAME] and [PROJECT_ROOT /
    TEAMIO_PROFILE_DIR_NAME], resolved. *)
Variable CREDITS_FILE : str.
Variable TEAMIO_PROFILE_DIR : str.
Variable env : Env.

(** *** Helpers around credits.json *)

Definition load_entries (filepath : str) : M (list json) :=
  fun w =>
    match files w filepath with
    | None => (w, Ok [])                      (* not filepath.exists() *)
    | Some text =>
        match json_load text with
        | Some (JList data) => (w, Ok data)   (* isinstance(data, list) *)
        | Some _ => (w, Ok [])
        | None => (w, Ok [])                  (* except Exception: pass *)
        end
    end.

Definition entry_of (r : PortalCredits) : json :=
  JDict [ (py "timestamp", JStr (isoformat (timestamp r)));
          (py "portal", JStr (portal r));
          (py "credits", JInt (credits r)) ].

(** [with filepath.open("w", encoding="utf-8") as f: json.dump(...)] *)
Definition write_json (filepath : str) (v : json) : M unit :=
  fun w =>
    match write_fault env with
    | Some e => (w, Raise e)
    | None =>
        let text := json_dump v in
        (MkWorld (fun p => if str_eqb p filepath then Some text else files w p)
                 (trace w ++ [Write filepath text]),
         Ok tt)
    end.

Definition save_entries (new_records : list PortalCredits) (filepath : str)
  : M unit :=
  entries <- load_entries filepath ;;
  let entries :=
    fold_left (fun acc r => acc ++ [entry_of r]) new_records entries in
  write_json filepath (JList entries).

(** *** Teamio *)

(** [int(s)] on a string of digit characters: the string is what
    [\d+] captured, or what the filter on [str.isdigit] kept.  Every
    character must be a decimal digit; the value is read in base ten.
    (The interpreter's optional cap on the length of such a string is
    not modelled.) *)
Definition decimal_number (s : str) : Z :=
  fold_left (fun acc c => 10 * acc + decimal_value c)%Z s 0%Z.

Definition int_of_digits (s : str) : result Z :=
  match s with
  | [] => Raise (Exc ValueError (py "invalid literal for int() with base 10: ''"))
  | _ :: _ =>
      if forallb isdecimal s
      then Ok (decimal_number s)
      else Raise (Exc ValueError (py "invalid literal for int() with base 10: " ++ s))
  end.

(** [int(m.group(1))] *)
Definition int_of_group (g : option str) : result Z :=
  match g with
  | Some s => int_of_digits s
  | None => Raise (Exc TypeError (py "int() argument must be a string, a bytes-like object or a real number, not 'NoneType'"))
  end.

(** [if TEAMIO_CREDITS_LOCATOR:] *)
Definition configured_locator : option str :=
  match TEAMIO_CREDITS_LOCATOR env with
  | Some (c :: sel) => Some (c :: sel)
  | Some [] => None
  | None => None
  end.

(** The body of the [try] of step 1: [Some v] where it returns [v],
    [None] where it runs to its end. *)
Definition locator_attempt (pg : Page) (sel : str) : result (option Z) :=
  match locator_inner_text pg sel with
  | Raise e => Raise e
  | Ok text =>
      let digits := filter isdigit text in
      match digits with
      | [] => Ok None
      | _ :: _ =>
          match int_of_digits digits with
          | Ok v => Ok (Some v)
          | Raise e => Raise e
          end
      end
  end.

(** Step 1 with its [except Exception: pass]. *)
Definition locator_stage (pg : Page) : result (option Z) :=
  match configured_locator with
  | None => Ok None
  | Some sel =>
      match locator_attempt pg sel with
      | Ok r => Ok r
      | Raise e => if is_Exception e then Ok None else Raise e
      end
  end.

Definition teamio_not_found : exn :=
  Exc RuntimeError
      (py "Teamio: Nepodařilo se najít počet kreditů na stránce." ++ [10]
       ++ py "Ujisti se, že jsi na dashboardu se 'Zbývající předplatné' a řádkem jako '1486  kreditů'.").

(** Step 2: the two patterns over the text of the whole page. *)
Definition teamio_whole_page (pg : Page) : result Z :=
  match body_inner_text pg with
  | Raise e => Raise e
  | Ok body_text =>
      match search pattern_direct body_text with
      | Some g => int_of_group g
      | None =>
          match search pattern_reverse body_text with
          | Some g => int_of_group g
          | None => Raise teamio_not_found
          end
      end
  end.

Definition extract_teamio_credits_from_page (pg : Page) : result Z :=
  match locator_stage pg with
  | Raise e => Raise e
  | Ok (Some v) => Ok v
  | Ok None => teamio_whole_page pg
  end.

(** An awaited call of a session driver. *)
Definition await (p : portal_id) (ss : Session) (s : site) : M unit :=
  fun w =>
    (MkWorld (files w) (trace w ++ [Call p s]),
     match fault ss s with
     | Some e => Raise e
     | None => Ok tt
     end).

Definition teamio_profile_missing : exn :=
  Exc RuntimeError
      (py "Teamio profil '" ++ TEAMIO_PROFILE_DIR ++ py "' neexistuje." ++ [10]
       ++ py "Spusť jednou 'teamio_bootstrap_login.py', přihlas se do Teamia a profil se vytvoří.").

Definition teamio_instructions : str :=
  [10] ++ py "V otevřeném okně prohlížeče zkontroluj, že jsi na dashboardu Teamia," ++ [10]
  ++ py "kde vidíš 'Zbývající předplatné' a řádek '1486  kreditů'." ++ [10]
  ++ py "- Pokud vidíš přihlašovací obrazovku, přihlas se (včetně 2FA z e-mailu)," ++ [10]
  ++ py "  dokud neuvidíš dashboard s kredity." ++ [10]
  ++ py "- Pokud už dashboard vidíš, nedělej nic." ++ [10].

Definition fetch_teamio_credits : M PortalCredits :=
  if negb (teamio_profile_exists env) then raise teamio_profile_missing
  else
    let ss := teamio_session env in
    await Teamio ss AtPlaywright ;;
    await Teamio ss AtLaunch ;;
    await Teamio ss AtNewPage ;;
    print (py "[Teamio] Otevírám dashboard: " ++ TEAMIO_CREDITS_URL env) ;;
    await Teamio ss AtGoto ;;
    await Teamio ss AtIdle ;;
    print teamio_instructions ;;
    await Teamio ss AtInput ;;
    await Teamio ss AtGotoAgain ;;
    await Teamio ss AtIdleAgain ;;
    credits_value <- lift (extract_teamio_credits_from_page (page ss)) ;;
    let now := now ss in
    await Teamio ss AtClose ;;
    print (py "[Teamio] " ++ isoformat now ++ py " – "
           ++ str_of_int credits_value ++ py " kreditů") ;;
    ret (MkPortalCredits (py "Teamio") credits_value now).

(** *** InWork *)

Definition inwork_not_found : exn :=
  Exc RuntimeError
      (py "InWork: Nepodařilo se najít 'Stav kreditů: X' na stránce." ++ [10]
       ++ py "Ujisti se, že jsi na přehledu, kde je vidět text jako 'Stav kreditů: 2'.").

(** [for pat in patterns: m = pat.search(text); if m: return ...] *)
Fixpoint first_match (pats : list regex) (text : str) : option (option str) :=
  match pats with
  | [] => None
  | pat :: pats' =>
      match search pat text with
      | Some g => Some g
      | None => first_match pats' text
      end
  end.

Definition extract_inwork_credits_from_page (pg : Page) : result Z :=
  match body_inner_text pg with
  | Raise e => Raise e
  | Ok text =>
      match first_match INWORK_CREDITS_PATTERNS text with
      | Some g => int_of_group g
      | None => Raise inwork_not_found
      end
  end.

Definition inwork_instructions : str :=
  [10] ++ py "V otevřeném okně prohlížeče se přihlas do InWork/Fajnsprava (e-mail, heslo, případně SMS/2FA)" ++ [10]
  ++ py "a přepni se na stránku, kde je vidět 'Stav kreditů: X'." ++ [10]
  ++ py "Až budeš na správné stránce, vrať se do konzole." ++ [10].

Definition fetch_inwork_credits : M PortalCredits :=
  let ss := inwork_session env in
  await InWork ss AtPlaywright ;;
  await InWork ss AtLaunch ;;
  await InWork ss AtNewPage ;;
  print (py "[InWork] Otevírám: " ++ INWORK_DASHBOARD_URL env) ;;
  await InWork ss AtGoto ;;
  print inwork_instructions ;;
  await InWork ss AtInput ;;
  await InWork ss AtIdle ;;
  credits_value <- lift (extract_inwork_credits_from_page (page ss)) ;;
  let now := now ss in
  await InWork ss AtClose ;;
  print (py "[InWork] " ++ isoformat now ++ py " – "
         ++ str_of_int credits_value ++ py " kreditů") ;;
  ret (MkPortalCredits (py "InWork") credits_value now).

(** *** The orchestrator *)

(** [name in portals] *)
Definition requested (name : str) (portals : list str) : bool :=
  existsb (fun p => str_eqb p name) portals.

Definition teamio_failure (e : exn) : str := py "[Teamio] Chyba: " ++ exn_str e.
Definition inwork_failure (e : exn) : str := py "[InWork] Chyba: " ++ exn_str e.
Definition nothing_to_save : str := py "[AGENT] Nemám žádná nová data k uložení.".
Definition saved_message (n : nat) : str :=
  py "[AGENT] Uloženo " ++ str_of_int (Z.of_nat n) ++ py " záznamů do "
  ++ CREDITS_FILE_NAME ++ py ".".

(** One [if name in portals: try: ... except Exception as e: print(...)]
    block: the list of results after it. *)
Definition attempt (name : str) (fetch : M PortalCredits)
           (report : exn -> str) (portals : list str)
           (results : list PortalCredits) : M (list PortalCredits) :=
  if requested name portals then
    try_except (res <- fetch ;; ret (results ++ [res]))
               (fun e => print (report e) ;; ret results)
  else ret results.

Definition collect (portals : list str) : M unit :=
  results <- attempt (py "teamio") fetch_teamio_credits teamio_failure portals [] ;;
  results <- attempt (py "inwork") fetch_inwork_credits inwork_failure portals results ;;
  match results with
  | [] => print nothing_to_save
  | _ :: _ =>
      save_entries results CREDITS_FILE ;;
      print (saved_message (List.length results))
  end.

(** *** The command line *)

Definition usage_message : str :=
  py "Neznámý argument. Použij bez argumentů, nebo 'teamio' / 'inwork'.".

Definition parse_args (argv : list str) : M (list str) :=
  match argv with
  | [] => ret [py "teamio"; py "inwork"]
  | [_] => ret [py "teamio"; py "inwork"]        (* len(argv) <= 1 *)
  | _ :: arg1 :: _ =>
      let arg := lower arg1 in
      if str_eqb arg (py "teamio") then ret [py "teamio"]
      else if str_eqb arg (py "inwork") then ret [py "inwork"]
      else print usage_message ;; raise (SystemExit 1)
  end.

Definition interrupted_message : str := [10] ++ py "[AGENT] Přerušeno uživatelem.".

Definition main (argv : list str) : M unit :=
  portals <- parse_args argv ;;
  fun w =>
    match collect portals w with
    | (w', Raise KeyboardInterrupt) => print interrupted_message w'
    | r => r
    end.

(** The exit status of the process that ran [main]. *)
Definition exit_status (r : result unit) : Z :=
  match r with
  | Ok _ => 0
  | Raise (SystemExit st) => st
  | Raise _ => 1
  end.

End Program.

(** * Vocabulary of the properties *)

(** [text] occurs in [whole]. *)
Definition occurs_in (text whole : str) : Prop :=
  exists pre post, whole = pre ++ text ++ post.

(** The two lines the script's messages give as examples. *)
Definition teamio_sample : str := py "1486  kreditů".
Definition inwork_sample : str := py "Stav kreditů: 2".

(** The character before the cursor once [ys] has been read. *)
Fixpoint prev_after (p : option N) (ys : str) : option N :=
  match ys with
  | [] => p
  | y :: ys' => prev_after (Some y) ys'
  end.

(** The text does not go on with a character of class [c]. *)
Definition stops `{UnicodeData} (c : cclass) (xs : str) : Prop :=
  match xs with
  | [] => True
  | x :: _ => cmatch c x = false
  end.

(** No match of [r] starts at a position inside [pre], in the text
    [pre ++ tail] read from a cursor that has [p] before it. *)
Fixpoint unmatched_prefix `{UnicodeData} (r : regex) (p : option N)
         (pre tail : str) : bool :=
  match pre with
  | [] => true
  | c :: pre' =>
      match match_here r p (pre ++ tail) with
      | Some _ => false
      | None => unmatched_prefix r (Some c) pre' tail
      end
  end.

(** The text holds no decimal digit. *)
Definition digit_free `{UnicodeData} (xs : str) : Prop :=
  Forall (fun c => isdecimal c = false) xs.

(** Every match of [r] reads at least one decimal digit. *)
Fixpoint needs_digit (r : regex) : bool :=
  match r with
  | Chr Digit => true
  | Plus Digit => true
  | Seq a b => needs_digit a || needs_digit b
  | Alt a b => needs_digit a && needs_digit b
  | Group a => needs_digit a
  | _ => false
  end.

(** [d.get(k)] on the items of a dict *)
Fixpoint lookup (k : str) (kv : list (str * json)) : option json :=
  match kv with
  | [] => None
  | (k', v) :: kv' => if str_eqb k' k then Some v else lookup k kv'
  end.

(** A record of the log as the interface describes it: an object with
    exactly the three fields [timestamp] (a string), [portal] (a string)
    and [credits] (a non-negative integer). *)
Definition is_reading_record (v : json) : bool :=
  match v with
  | JDict kv =>
      Nat.eqb (List.length kv) 3
      && match lookup (py "timestamp") kv with Some (JStr _) => true | _ => false end
      && match lookup (py "portal") kv with Some (JStr _) => true | _ => false end
      && match lookup (py "credits") kv with Some (JInt c) => (0 <=? c)%Z | _ => false end
  | _ => false
  end.

(** The text of a file reads as a well-formed sequence of records. *)
Definition well_formed_log `{JsonCodec} (text : file_text) : bool :=
  match json_load text with
  | Some (JList l) => forallb is_reading_record l
  | _ => false
  end.

(** What the operator and the store see of a run. *)
Definition is_failure_report `{JsonCodec} (ev : event) : bool :=
  match ev with
  | Print line =>
      startswith (py "[Teamio] Chyba: ") line
      || startswith (py "[InWork] Chyba: ") line
  | _ => false
  end.

Definition is_write `{JsonCodec} (ev : event) : bool :=
  match ev with
  | Write _ _ => true
  | _ => false
  end.

(** A computation that leaves the files alone and adds to the trace only
    events that [allowed] accepts. *)
Definition adds_only `{JsonCodec} {A} (allowed : event -> bool) (m : M A)
  : Prop :=
  forall w w' r,
    m w = (w', r) ->
    files w' = files w
    /\ exists evs, trace w' = trace w ++ evs /\ forallb allowed evs = true.

(** Neither a failure report nor a write. *)
Definition session_event `{JsonCodec} (ev : event) : bool :=
  negb (is_failure_report ev) && negb (is_write ev).

Definition not_write `{JsonCodec} (ev : event) : bool := negb (is_write ev).

(** The first half of [collect]: the two guarded attempts, and the list
    of readings they leave. *)
Definition gather `{UnicodeData} `{JsonCodec} (TEAMIO_PROFILE_DIR : str)
           (env : Env) (portals : list str) : M (list PortalCredits) :=
  results <- attempt (py "teamio") (fetch_teamio_credits TEAMIO_PROFILE_DIR env)
                     teamio_failure portals [] ;;
  attempt (py "inwork") (fetch_inwork_credits env) inwork_failure portals results.

(** ** Sample pages, sessions and disks *)

Definition timeout_error : exn :=
  Exc PlaywrightError (py "Timeout 30000ms exceeded.").

(** A page with the given visible text, on which no locator resolves. *)
Definition page_showing (body : str) : Page :=
  MkPage (fun _ => Raise timeout_error) (Ok body).

(** A page on which every locator resolves to an element with the text
    [fragment]. *)
Definition page_with_element (fragment body : str) : Page :=
  MkPage (fun _ => Ok fragment) (Ok body).

Definition sample_clock : datetime := DateTime 2025 11 30 9 15 42 0.

(** A session in which every call succeeds and the page shows [body]. *)
Definition session_showing (body : str) : Session :=
  MkSession (fun _ => None) (page_showing body) sample_clock.

(** A session whose browser cannot be launched. *)
Definition session_not_launching : Session :=
  MkSession (fun s => match s with AtLaunch => Some timeout_error | _ => None end)
            (page_showing []) sample_clock.

Definition sample_env (locator : option str) (teamio inwork : Session) : Env :=
  MkEnv (py "https://my.teamio.com/recruit/dashboard") locator
        (py "https://www.fajnsprava.cz/prihlasit.html")
        true teamio inwork None.

Definition sample_credits_file : str := py "/srv/job_portal_credits/credits.json".
Definition sample_profile_dir : str := py "/srv/job_portal_credits/teamio_profile".
Definition script_name : str := py "job_portal_credits.py".

(** A disk on which the log is missing, and one on which it holds [text]. *)
Definition empty_disk : World := MkWorld (fun _ => None) [].
Definition disk_with (text : doc_text) : World :=
  MkWorld (fun p => if str_eqb p sample_credits_file then Some text else None) [].

Definition teamio_reading : PortalCredits :=
  MkPortalCredits (py "Teamio") 1486 sample_clock.
Definition inwork_reading : PortalCredits :=
  MkPortalCredits (py "InWork") 2 sample_clock.

(** * The bootstrap script

    [teamio_bootstrap_login.py]: it creates the profile directory, opens a
    browser on it, lets the operator log in, and closes the browser in a
    [finally]. *)

(** Configuration and environment of one run of the bootstrap. *)
Record BootEnv := MkBootEnv {
  (** [os.environ.get("TEAMIO_LOGIN_URL")] *)
  TEAMIO_LOGIN_URL : option str;
  boot_session : Session;
  (** the exception raised when the directory cannot be created *)
  mkdir_fault : option exn
}.

Section Bootstrap.
Context `{JsonCodec}.

(** The disk as the two scripts see it together: the directories that
    exist, beside the files and the trace. *)
Record Disk := MkDisk {
  dirs : str -> bool;
  world : World
}.

(** [project_root / "teamio_profile"], resolved. *)
Variable user_data_dir : str.
Variable benv : BootEnv.

(** State and exceptions over the disk. *)
Definition B (A : Type) := Disk -> Disk * result A.

Definition bindB {A C} (m : B A) (k : A -> B C) : B C :=
  fun d =>
    match m d with
    | (d', Ok a) => k a d'
    | (d', Raise e) => (d', Raise e)
    end.

(** A computation that only uses the files and the trace. *)
Definition in_world {A} (m : M A) : B A :=
  fun d =>
    match m (world d) with
    | (w', r) => (MkDisk (dirs d) w', r)
    end.

(** [try: m  finally: fin]: [fin] runs whatever [m] did; what [fin]
    raises replaces the outcome of [m]. *)
Definition try_finally {A} (m : B A) (fin : B unit) : B A :=
  fun d =>
    match m d with
    | (d1, r) =>
        match fin d1 with
        | (d2, Ok _) => (d2, r)
        | (d2, Raise e) => (d2, Raise e)
        end
    end.

(** [path.mkdir(parents=True, exist_ok=True)] (the parents are not
    tracked). *)
Definition mkdir (path : str) : B unit :=
  fun d =>
    match mkdir_fault benv with
    | Some e => (d, Raise e)
    | None => (MkDisk (fun p => str_eqb p path || dirs d p) (world d), Ok tt)
    end.

Definition start_url : str :=
  match TEAMIO_LOGIN_URL benv with
  | Some url => url
  | None => py "https://my.teamio.com/recruit/dashboard"
  end.

Definition launching_line : str :=
  py "Launching Chromium with persistent profile at:" ++ [32] ++ user_data_dir.

Definition opening_line : str := py "Opening " ++ start_url ++ py "...".

Definition bootstrap_instructions : str :=
  [10] ++ py "A Chromium window has opened.  Please log in to Teamio manually, "
  ++ py "including any two‑factor authentication (2FA) steps.  " ++ [10]
  ++ py "Once you reach your Teamio dashboard, return here and press Enter to "
  ++ py "save the session." ++ [10].

Definition session_saved : str :=
  py "Session saved.  You can now run check_credits.py without logging in again (until the session expires).".

Definition bootstrap_login : B unit :=
  let ss := boot_session benv in
  bindB (mkdir user_data_dir) (fun _ =>
  bindB (in_world (await Teamio ss AtPlaywright)) (fun _ =>
  bindB (in_world (print launching_line)) (fun _ =>
  bindB (in_world (await Teamio ss AtLaunch)) (fun _ =>
  bindB (try_finally
           (bindB (in_world (await Teamio ss AtNewPage)) (fun _ =>
            bindB (in_world (print opening_line)) (fun _ =>
            bindB (in_world (await Teamio ss AtGoto)) (fun _ =>
            bindB (in_world (print bootstrap_instructions)) (fun _ =>
            in_world (await Teamio ss AtInput))))))
           (in_world (await Teamio ss AtClose))) (fun _ =>
  in_world (print session_saved)))))).

(** [main] of the bootstrap: [asyncio.run(bootstrap_login())]. *)
Definition bootstrap_main : B unit := bootstrap_login.

End Bootstrap.

(** * Further vocabulary *)

(** Two laws of the character database beside those of [UnicodeData]: a
    decimal digit is a digit for [str.isdigit], and on ASCII [str.isalnum]
    is the ASCII letters and digits.  Both hold of CPython's database. *)
Class UnicodeLaws `{UnicodeData} := {
  isdigit_of_isdecimal : forall c, isdecimal c = true -> isdigit c = true;
  isalnum_ascii : forall c, c < 128 -> isalnum c = ascii_isalnum c
}.

#[export, refine] Instance czech_laws : @UnicodeLaws czech_ascii := {|
  isdigit_of_isdecimal := fun c Hc => Hc
|}.
Proof.
  intros c Hc. cbn.
  assert (H6 : (c =? 366) = false) by (apply N.eqb_neq; lia).
  assert (H7 : (c =? 367) = false) by (apply N.eqb_neq; lia).
  rewrite H6, H7, !orb_false_r. reflexivity.
Defined.

(** The database of [czech_ascii] with the superscript digits U+00B2,
    U+00B3 and U+00B9: digits for [str.isdigit], not decimal. *)
Definition superscript_data : UnicodeData := {|
  isdecimal := @isdecimal czech_ascii;
  decimal_value := @decimal_value czech_ascii;
  isdigit := fun c => ascii_isdigit c || (c =? 178) || (c =? 179) || (c =? 185);
  isspace := @isspace czech_ascii;
  isalnum := @isalnum czech_ascii;
  ci_match := @ci_match czech_ascii;
  lower := @lower czech_ascii;
  isdecimal_ascii := @isdecimal_ascii czech_ascii;
  decimal_value_ascii := @decimal_value_ascii czech_ascii;
  decimal_value_range := @decimal_value_range czech_ascii;
  isspace_ascii := @isspace_ascii czech_ascii;
  isalnum_u_ring := @isalnum_u_ring czech_ascii;
  ci_match_refl := @ci_match_refl czech_ascii;
  lower_ascii := @lower_ascii czech_ascii
|}.

(** The pattern holds no capturing group. *)
Fixpoint group_free (r : regex) : bool :=
  match r with
  | Seq a b => group_free a && group_free b
  | Alt a b => group_free a && group_free b
  | Opt a => group_free a
  | Group _ => false
  | _ => true
  end.

(** The forms of the unit word that [word_pattern] spells out. *)
Definition unit_words : list str :=
  [py "kredit"; py "kreditů"; py "kredity"; py "credit"; py "credits"].

(** A run of ASCII white space. *)
Definition ascii_blank (ws : str) : Prop :=
  Forall (fun c => ascii_isspace c = true) ws.

(** A run of ASCII digits. *)
Definition ascii_digits (ds : str) : Prop :=
  Forall (fun c => ascii_isdigit c = true) ds.

(** The value a run of decimal digits spells, digit by digit. *)
Fixpoint uint_value (acc : Z) (d : Decimal.uint) : Z :=
  match d with
  | Decimal.Nil => acc
  | Decimal.D0 l => uint_value (10 * acc + 0) l
  | Decimal.D1 l => uint_value (10 * acc + 1) l
  | Decimal.D2 l => uint_value (10 * acc + 2) l
  | Decimal.D3 l => uint_value (10 * acc + 3) l
  | Decimal.D4 l => uint_value (10 * acc + 4) l
  | Decimal.D5 l => uint_value (10 * acc + 5) l
  | Decimal.D6 l => uint_value (10 * acc + 6) l
  | Decimal.D7 l => uint_value (10 * acc + 7) l
  | Decimal.D8 l => uint_value (10 * acc + 8) l
  | Decimal.D9 l => uint_value (10 * acc + 9) l
  end.

(** Calls of the trace. *)
Definition is_call_of `{JsonCodec} (p : portal_id) (ev : event) : bool :=
  match ev, p with
  | Call Teamio _, Teamio => true
  | Call InWork _, InWork => true
  | _, _ => false
  end.

Definition is_close `{JsonCodec} (ev : event) : bool :=
  match ev with
  | Call _ AtClose => true
  | _ => false
  end.

Definition is_line `{JsonCodec} (line : str) (ev : event) : bool :=
  match ev with
  | Print l => str_eqb l line
  | _ => false
  end.

(** An event other than a call into the session of [p]. *)
Definition not_call_of `{JsonCodec} (p : portal_id) (ev : event) : bool :=
  negb (is_call_of p ev).

(** A computation that only adds to the trace. *)
Definition any_event `{JsonCodec} (ev : event) : bool := true.

(** ** Further sample sessions *)

(** A session in which the operator interrupts at the prompt. *)
Definition session_interrupted (body : str) : Session :=
  MkSession (fun s => match s with AtInput => Some KeyboardInterrupt | _ => None end)
            (page_showing body) sample_clock.

Definition sample_boot_env (ss : Session) : BootEnv := MkBootEnv None ss None.

Definition empty_machine : Disk := MkDisk (fun _ => false) empty_disk.

(** * Properties *)

(** ** Facts about the matcher *)

Section MatcherFacts.
Context `{UnicodeData}.

Lemma captured_app (p p' : option N) (ys xs : str) (g g' : option str) :
  captured (MState p (ys ++ xs) g) (MState p' xs g') = ys.
Proof.
  unfold captured; simpl.
  rewrite length_app.
  replace (List.length ys + List.length xs - List.length xs)%nat
    with (List.length ys) by lia.
  rewrite firstn_app, firstn_all, Nat.sub_diag. simpl.
  apply app_nil_r.
Qed.

Lemma rmatch_lits {A} (s : str) (k : mstate -> option A)
      (p : option N) (xs : str) (g : option str) :
  rmatch (lits s) k (MState p (s ++ xs) g) = k (MState (prev_after p s) xs g).
Proof.
  revert p. induction s as [|c s IH]; intros p; simpl.
  - reflexivity.
  - rewrite ci_match_refl. apply IH.
Qed.

(** A greedy star that can take all of [ys] and no more hands the
    continuation the position after [ys] first. *)
Lemma star_from_greedy {A} (c : cclass) (k : mstate -> option A)
      (ys xs : str) (p : option N) (g : option str) (r : A) :
  Forall (fun y => cmatch c y = true) ys ->
  stops c xs ->
  k (MState (prev_after p ys) xs g) = Some r ->
  star_from c k p (ys ++ xs) g = Some r.
Proof.
  intros Hys Hstop. revert p.
  induction Hys as [|y ys Hy Hys IH]; intros p Hk; simpl in *.
  - destruct xs as [|x xs]; simpl in *; [exact Hk|].
    rewrite Hstop. exact Hk.
  - rewrite Hy. rewrite (IH (Some y) Hk). reflexivity.
Qed.

Lemma plus_greedy {A} (c : cclass) (k : mstate -> option A)
      (y : N) (ys xs : str) (p : option N) (g : option str) (r : A) :
  Forall (fun y => cmatch c y = true) (y :: ys) ->
  stops c xs ->
  k (MState (prev_after p (y :: ys)) xs g) = Some r ->
  rmatch (Plus c) k (MState p ((y :: ys) ++ xs) g) = Some r.
Proof.
  intros Hys Hstop Hk. inversion Hys as [|? ? Hy Hys']; subst.
  simpl. rewrite Hy. apply star_from_greedy; assumption.
Qed.

(** A search skips a prefix in which no match starts. *)
Lemma search_from_skip (r : regex) (pre tail : str) :
  forall p,
    unmatched_prefix r p pre tail = true ->
    search_from r p (pre ++ tail) = search_from r (prev_after p pre) tail.
Proof.
  induction pre as [|c pre IH]; intros p Hpre.
  - reflexivity.
  - simpl in Hpre. simpl app.
    destruct (match_here r p (c :: pre ++ tail)) eqn:E; [discriminate|].
    simpl search_from at 1. rewrite E. simpl. apply IH, Hpre.
Qed.

Lemma search_from_here (r : regex) (p : option N) (xs : str) (g : option str) :
  match_here r p xs = Some g -> search_from r p xs = Some g.
Proof.
  intros E. destruct xs; simpl; rewrite E; reflexivity.
Qed.


(** On a text without decimal digits the matcher succeeds only if its
    continuation does, somewhere in that text. *)
Lemma star_from_digit_free {A} (c : cclass) (k : mstate -> option A) :
  (forall s', digit_free (rest s') -> k s' = None) ->
  forall xs p g, digit_free xs -> star_from c k p xs g = None.
Proof.
  intros Hk. induction xs as [|x xs IH]; intros p g Hxs; simpl.
  - apply Hk. exact Hxs.
  - inversion Hxs as [|? ? Hx Hxs']; subst.
    destruct (cmatch c x); [rewrite (IH _ _ Hxs')|]; apply Hk; exact Hxs.
Qed.

Lemma rmatch_digit_free {A} (r : regex) :
  forall (k : mstate -> option A) (s : mstate),
    digit_free (rest s) ->
    (forall s', digit_free (rest s') -> k s' = None) ->
    rmatch r k s = None.
Proof.
  induction r; intros k s Hs Hk; simpl.
  - apply Hk, Hs.
  - destruct s as [p [|x xs] g]; [reflexivity|]. simpl in *.
    inversion Hs; subst.
    destruct (cmatch c x); [apply Hk; assumption | reflexivity].
  - apply star_from_digit_free; assumption.
  - destruct s as [p [|x xs] g]; [reflexivity|]. simpl in *.
    inversion Hs; subst.
    destruct (cmatch c x); [apply star_from_digit_free; assumption | reflexivity].
  - destruct (at_boundary s); [apply Hk, Hs | reflexivity].
  - apply IHr1; [exact Hs|]. intros s' Hs'. apply IHr2; assumption.
  - rewrite IHr1 by assumption. apply IHr2; assumption.
  - rewrite IHr by assumption. apply Hk, Hs.
  - apply IHr; [exact Hs|]. intros s' Hs'. apply Hk. exact Hs'.
Qed.

Lemma needs_digit_fails {A} (r : regex) :
  needs_digit r = true ->
  forall (k : mstate -> option A) (s : mstate),
    digit_free (rest s) -> rmatch r k s = None.
Proof.
  induction r; simpl; intros Hr k s Hs; try discriminate.
  - destruct c; try discriminate.
    destruct s as [p [|x xs] g]; [reflexivity|]. simpl in *.
    inversion Hs as [|? ? Hx ?]; subst. rewrite Hx. reflexivity.
  - destruct c; try discriminate.
    destruct s as [p [|x xs] g]; [reflexivity|]. simpl in *.
    inversion Hs as [|? ? Hx ?]; subst. rewrite Hx. reflexivity.
  - apply orb_true_iff in Hr. destruct Hr as [Ha | Hb].
    + apply IHr1; assumption.
    + apply rmatch_digit_free; [exact Hs|].
      intros s' Hs'. apply IHr2; assumption.
  - apply andb_true_iff in Hr. destruct Hr as [Ha Hb].
    rewrite IHr1 by assumption. apply IHr2; assumption.
  - apply IHr; assumption.
Qed.

(** A pattern that needs a digit is not found in a text without one. *)
Lemma search_digit_free (r : regex) (xs : str) :
  needs_digit r = true ->
  digit_free xs ->
  forall p, search_from r p xs = None.
Proof.
  intros Hr. induction 1 as [|x xs Hx Hxs IH]; intros p; simpl;
    unfold match_here; rewrite (needs_digit_fails r Hr).
  - reflexivity.
  - constructor.
  - apply IH.
  - constructor; assumption.
Qed.

End MatcherFacts.

Section SampleMatches.
Context `{UnicodeData}.

Lemma rmatch_seq {A} (a b : regex) (k : mstate -> option A) (s : mstate) :
  rmatch (Seq a b) k s = rmatch a (rmatch b k) s.
Proof. reflexivity. Qed.

Lemma rmatch_group {A} (a : regex) (k : mstate -> option A) (s : mstate) :
  rmatch (Group a) k s =
  rmatch a (fun s' => k (MState (prev s') (rest s') (Some (captured s s')))) s.
Proof. reflexivity. Qed.

Lemma rmatch_star {A} (c : cclass) (k : mstate -> option A)
      (p : option N) (xs : str) (g : option str) :
  rmatch (Star c) k (MState p xs g) = star_from c k p xs g.
Proof. reflexivity. Qed.

Lemma rmatch_chr {A} (c : N) (k : mstate -> option A)
      (p : option N) (xs : str) (g : option str) :
  rmatch (Chr (Lit c)) k (MState p (c :: xs) g) = k (MState (Some c) xs g).
Proof. simpl. rewrite ci_match_refl. reflexivity. Qed.

Lemma rmatch_alt_left {A} (a b : regex) (k : mstate -> option A)
      (s : mstate) (r : A) :
  rmatch a k s = Some r -> rmatch (Alt a b) k s = Some r.
Proof. intros E. simpl. rewrite E. reflexivity. Qed.

Lemma rmatch_opt_taken {A} (a : regex) (k : mstate -> option A)
      (s : mstate) (r : A) :
  rmatch a k s = Some r -> rmatch (Opt a) k s = Some r.
Proof. intros E. simpl. rewrite E. reflexivity. Qed.

Lemma rmatch_wordb {A} (k : mstate -> option A) (s : mstate) :
  at_boundary s = true -> rmatch WordB k s = k s.
Proof. intros E. simpl. rewrite E. reflexivity. Qed.

Ltac ascii_class :=
  cbn;
  repeat first
    [ rewrite isdecimal_ascii by reflexivity
    | rewrite isspace_ascii by reflexivity ];
  reflexivity.

Ltac all_in_class := repeat (constructor; [ascii_class|]); constructor.

(** The number-before-unit pattern matches at the sample line when the
    line is not continued by a word character. *)
Lemma direct_matches_sample (p : option N) (post : str) :
  word_at (hd_error post) = false ->
  match_here pattern_direct p (teamio_sample ++ post)
  = Some (Some (py "1486")).
Proof.
  intros Hpost. unfold match_here, pattern_direct.
  change (teamio_sample ++ post)
    with ((49 :: [52; 56; 54]) ++ ([32; 32] ++ (py "kredit" ++ (367 :: post)))).
  rewrite rmatch_seq, rmatch_group.
  apply plus_greedy; [all_in_class | ascii_class |].
  cbn [prev rest grp]. rewrite captured_app.
  rewrite rmatch_seq, rmatch_star.
  apply star_from_greedy; [all_in_class | ascii_class |].
  unfold word_pattern. apply rmatch_alt_left.
  rewrite rmatch_seq, rmatch_lits, rmatch_seq.
  apply rmatch_opt_taken, rmatch_alt_left.
  rewrite rmatch_chr, rmatch_wordb; [reflexivity|].
  unfold at_boundary. cbn [prev rest word_at]. rewrite Hpost.
  unfold isword. rewrite isalnum_u_ring. reflexivity.
Qed.

(** The "Stav kreditů: N" pattern matches at the sample line when the
    line is not continued by a decimal digit. *)
Lemma status_matches_sample (p : option N) (post : str) :
  stops Digit post ->
  match_here inwork_status_pattern p (inwork_sample ++ post)
  = Some (Some (py "2")).
Proof.
  intros Hpost. unfold match_here, inwork_status_pattern.
  change (inwork_sample ++ post)
    with (py "Stav" ++ ((32 :: []) ++ (py "kreditů" ++ ([] ++ (58 :: ([32] ++ ((50 :: []) ++ post))))))).
  rewrite rmatch_seq, rmatch_lits, rmatch_seq.
  apply plus_greedy; [all_in_class | ascii_class |].
  rewrite rmatch_seq, rmatch_lits, rmatch_seq, rmatch_star.
  apply star_from_greedy; [constructor | ascii_class |].
  rewrite rmatch_seq, rmatch_chr, rmatch_seq, rmatch_star.
  apply star_from_greedy; [all_in_class | ascii_class |].
  rewrite rmatch_group.
  apply plus_greedy; [all_in_class | exact Hpost |].
  cbn [prev rest grp]. rewrite captured_app. reflexivity.
Qed.

End SampleMatches.

(** ** The log *)

Section StoreFacts.
Context `{JsonCodec}.
Variable env : Env.

Lemma str_eqb_refl (a : str) : str_eqb a a = true.
Proof.
  induction a as [|x a IH]; [reflexivity|].
  simpl. rewrite N.eqb_refl. exact IH.
Qed.

Lemma str_eqb_eq (a b : str) : str_eqb a b = true -> a = b.
Proof.
  revert b. induction a as [|x a IH]; intros [|y b]; simpl;
    try discriminate; [reflexivity|].
  intros E. apply andb_true_iff in E. destruct E as [Exy Eab].
  apply N.eqb_eq in Exy. rewrite Exy, (IH _ Eab). reflexivity.
Qed.

Lemma str_eqb_neq (a b : str) : a <> b -> str_eqb a b = false.
Proof.
  intros Hab. destruct (str_eqb a b) eqn:E; [|reflexivity].
  exfalso. apply Hab, str_eqb_eq, E.
Qed.

Lemma append_loop (R : list PortalCredits) :
  forall L,
    fold_left (fun acc r => acc ++ [entry_of r]) R L = L ++ map entry_of R.
Proof.
  induction R as [|r R IH]; intros L; simpl.
  - symmetry. apply app_nil_r.
  - rewrite IH, <- app_assoc. reflexivity.
Qed.

Lemma entry_is_reading_record (r : PortalCredits) :
  (0 <= credits r)%Z -> is_reading_record (entry_of r) = true.
Proof.
  intros Hc. unfold is_reading_record, entry_of.
  cbn -[Z.leb]. apply Z.leb_le. exact Hc.
Qed.

(** What [save_entries] does to a world, in terms of what [load_entries]
    returned before it. *)
Lemma save_entries_run (R : list PortalCredits) (path : str)
      (w : World) (prior : list json) :
  load_entries path w = (w, Ok prior) ->
  write_fault env = None ->
  let text := json_dump (JList (prior ++ map entry_of R)) in
  save_entries env R path w
  = (MkWorld (fun p => if str_eqb p path then Some text else files w p)
             (trace w ++ [Write path text]),
     Ok tt).
Proof.
  intros Hload Hw. unfold save_entries, bind. rewrite Hload.
  unfold write_json. rewrite Hw, append_loop. reflexivity.
Qed.

Lemma load_entries_pure (path : str) (w : World) :
  exists prior, load_entries path w = (w, Ok prior).
Proof.
  unfold load_entries. destruct (files w path) as [text|]; [|eauto].
  destruct (json_load text) as [[]|]; eauto.
Qed.

Lemma load_after_write (path : str) (w : World) (v : list json)
      (tr : list event) :
  load_entries path
    (MkWorld (fun p => if str_eqb p path then Some (json_dump (JList v))
                       else files w p) tr)
  = (MkWorld (fun p => if str_eqb p path then Some (json_dump (JList v))
                       else files w p) tr,
     Ok v).
Proof.
  unfold load_entries; simpl.
  rewrite str_eqb_refl, json_load_dump. reflexivity.
Qed.


(** C2, amended.  When the log file is absent, or its text is not JSON,
    or it is JSON but not a list, [load_entries] returns the empty list
    and raises nothing; an append from such a state, when the file can be
    written, leaves a file that holds exactly the records of the new
    readings, which a load returns, and which is a well-formed log when
    the credits are non-negative. *)
Theorem load_entries_empty_on_non_list (R : list PortalCredits)
        (path : str) (w : World) :
  (files w path = None
   \/ exists text, files w path = Some text
                   /\ forall l, json_load text <> Some (JList l)) ->
  load_entries path w = (w, Ok [])
  /\ (write_fault env = None ->
      exists w',
        save_entries env R path w = (w', Ok tt)
        /\ files w' path = Some (json_dump (JList (map entry_of R)))
        /\ load_entries path w' = (w', Ok (map entry_of R))
        /\ (Forall (fun r => (0 <= credits r)%Z) R ->
            well_formed_log (json_dump (JList (map entry_of R))) = true)).
Proof.
  intros Hstate.
  assert (Hload : load_entries path w = (w, Ok [])).
  { unfold load_entries.
    destruct Hstate as [Habs | (text & Hfile & Hnl)].
    - rewrite Habs. reflexivity.
    - rewrite Hfile. destruct (json_load text) as [[]|] eqn:E; try reflexivity.
      exfalso. exact (Hnl _ eq_refl). }
  split; [exact Hload|].
  intros Hw. eexists.
  split; [apply (save_entries_run R path w [] Hload Hw)|].
  cbn [files app]. split; [rewrite str_eqb_refl; reflexivity|].
  split; [apply load_after_write|].
  intros Hnn. unfold well_formed_log. rewrite json_load_dump.
  apply forallb_forall. intros v Hv. apply in_map_iff in Hv.
  destruct Hv as (r & <- & Hr). apply entry_is_reading_record.
  rewrite Forall_forall in Hnn. apply Hnn, Hr.
Qed.

End StoreFacts.

(** ** What the session drivers add to the trace *)

Section TraceFacts.
Context `{UnicodeData} `{JsonCodec}.

Lemma adds_only_ret {A} (ok : event -> bool) (a : A) : adds_only ok (ret a).
Proof.
  intros w w' r E. inversion E; subst. split; [reflexivity|].
  exists []. split; [symmetry; apply app_nil_r | reflexivity].
Qed.

Lemma adds_only_raise {A} (ok : event -> bool) (e : exn) :
  adds_only ok (@raise _ A e).
Proof.
  intros w w' r E. inversion E; subst. split; [reflexivity|].
  exists []. split; [symmetry; apply app_nil_r | reflexivity].
Qed.

Lemma adds_only_lift {A} (ok : event -> bool) (x : result A) :
  adds_only ok (lift x).
Proof.
  intros w w' r E. inversion E; subst. split; [reflexivity|].
  exists []. split; [symmetry; apply app_nil_r | reflexivity].
Qed.

Lemma adds_only_emit (ok : event -> bool) (ev : event) :
  ok ev = true -> adds_only ok (emit ev).
Proof.
  intros Hev w w' r E. inversion E; subst. split; [reflexivity|].
  exists [ev]. split; [reflexivity|]. simpl. rewrite Hev. reflexivity.
Qed.

Lemma adds_only_await (ok : event -> bool) (p : portal_id) (ss : Session)
      (s : site) :
  ok (Call p s) = true -> adds_only ok (await p ss s).
Proof.
  intros Hev w w' r E. inversion E; subst. split; [reflexivity|].
  exists [Call p s]. split; [reflexivity|]. simpl. rewrite Hev. reflexivity.
Qed.

Lemma adds_only_bind {A B} (ok : event -> bool) (m : M A) (k : A -> M B) :
  adds_only ok m -> (forall a, adds_only ok (k a)) -> adds_only ok (bind m k).
Proof.
  intros Hm Hk w w' r E. unfold bind in E.
  destruct (m w) as [w1 [a|e]] eqn:Em.
  - destruct (Hm _ _ _ Em) as (Hf1 & evs1 & Ht1 & Hq1).
    destruct (Hk a _ _ _ E) as (Hf2 & evs2 & Ht2 & Hq2).
    split; [congruence|].
    exists (evs1 ++ evs2). split.
    + rewrite Ht2, Ht1, app_assoc. reflexivity.
    + rewrite forallb_app, Hq1, Hq2. reflexivity.
  - inversion E; subst. exact (Hm _ _ _ Em).
Qed.

Lemma adds_only_try {A} (ok : event -> bool) (m : M A) (h : exn -> M A) :
  adds_only ok m -> (forall e, adds_only ok (h e)) ->
  adds_only ok (try_except m h).
Proof.
  intros Hm Hh w w' r E. unfold try_except in E.
  destruct (m w) as [w1 [a|e]] eqn:Em.
  - inversion E; subst. exact (Hm _ _ _ Em).
  - destruct (is_Exception e).
    + destruct (Hm _ _ _ Em) as (Hf1 & evs1 & Ht1 & Hq1).
      destruct (Hh e _ _ _ E) as (Hf2 & evs2 & Ht2 & Hq2).
      split; [congruence|].
      exists (evs1 ++ evs2). split.
      * rewrite Ht2, Ht1, app_assoc. reflexivity.
      * rewrite forallb_app, Hq1, Hq2. reflexivity.
    + inversion E; subst. exact (Hm _ _ _ Em).
Qed.

Lemma adds_only_weaken {A} (ok ok' : event -> bool) (m : M A) :
  (forall ev, ok ev = true -> ok' ev = true) ->
  adds_only ok m -> adds_only ok' m.
Proof.
  intros Hok Hm w w' r E.
  destruct (Hm _ _ _ E) as (Hf & evs & Ht & Hq).
  split; [exact Hf|]. exists evs. split; [exact Ht|].
  apply forallb_forall. intros ev Hin.
  apply Hok. rewrite forallb_forall in Hq. apply Hq, Hin.
Qed.

Lemma dig_below (n : N) : dig n < 58.
Proof.
  unfold dig. assert (n mod 10 < 10) by (apply N.mod_lt; discriminate). lia.
Qed.

(** A line that goes on with a time stamp after the portal's tag is not
    a failure report. *)
Lemma stamp_line_event (tag : str) (t : datetime) (tl : str) :
  tag = py "[Teamio] " \/ tag = py "[InWork] " ->
  session_event (Print (tag ++ isoformat t ++ tl)) = true.
Proof.
  assert (Hd : forall n, (67 =? dig n) = false).
  { intros n. apply N.eqb_neq. pose proof (dig_below n). lia. }
  intros [-> | ->];
    unfold session_event, is_failure_report, is_write, isoformat, pad4;
    cbn -[dig N.eqb]; rewrite Hd; reflexivity.
Qed.

Variable TEAMIO_PROFILE_DIR : str.
Variable env : Env.

Ltac session_steps :=
  repeat first
    [ apply adds_only_bind; [|intros ?]
    | apply adds_only_await; reflexivity
    | apply adds_only_ret
    | apply adds_only_lift
    | apply adds_only_raise
    | apply adds_only_emit; apply stamp_line_event; auto
    | apply adds_only_emit; vm_compute; reflexivity ].

Lemma fetch_teamio_events :
  adds_only session_event (fetch_teamio_credits TEAMIO_PROFILE_DIR env).
Proof.
  unfold fetch_teamio_credits, print.
  destruct (negb (teamio_profile_exists env)); session_steps.
Qed.

Lemma fetch_inwork_events :
  adds_only session_event (fetch_inwork_credits env).
Proof.
  unfold fetch_inwork_credits, print. session_steps.
Qed.

Lemma session_event_not_write (ev : event) :
  session_event ev = true -> not_write ev = true.
Proof.
  unfold session_event, not_write. intros E.
  apply andb_true_iff in E. apply E.
Qed.

Lemma attempt_events (name : str) (fetch : M PortalCredits)
      (report : exn -> str) (portals : list str)
      (results : list PortalCredits) :
  adds_only session_event fetch ->
  adds_only not_write (attempt name fetch report portals results).
Proof.
  intros Hfetch. unfold attempt.
  destruct (requested name portals); [|apply adds_only_ret].
  apply adds_only_try.
  - apply adds_only_bind; [|intros; apply adds_only_ret].
    apply (adds_only_weaken session_event); [|exact Hfetch].
    apply session_event_not_write.
  - intros e. apply adds_only_bind; [|intros; apply adds_only_ret].
    apply adds_only_emit. reflexivity.
Qed.

Lemma gather_events (portals : list str) :
  adds_only not_write (gather TEAMIO_PROFILE_DIR env portals).
Proof.
  unfold gather. apply adds_only_bind; [|intros results];
    apply attempt_events;
    [apply fetch_teamio_events | apply fetch_inwork_events].
Qed.

End TraceFacts.

(** ** The orchestrator *)

Section OrchestratorFacts.
Context `{UnicodeData} `{JsonCodec}.
Variable CREDITS_FILE : str.
Variable TEAMIO_PROFILE_DIR : str.
Variable env : Env.


Lemma attempt_ok (name : str) (fetch : M PortalCredits) (report : exn -> str)
      (portals : list str) (results : list PortalCredits)
      (w w1 : World) (r : PortalCredits) :
  requested name portals = true ->
  fetch w = (w1, Ok r) ->
  attempt name fetch report portals results w = (w1, Ok (results ++ [r])).
Proof.
  intros Hreq Hf. unfold attempt, try_except, bind, ret.
  rewrite Hreq, Hf. reflexivity.
Qed.

Lemma attempt_caught (name : str) (fetch : M PortalCredits)
      (report : exn -> str) (portals : list str)
      (results : list PortalCredits) (w w1 : World) (e : exn) :
  requested name portals = true ->
  fetch w = (w1, Raise e) ->
  is_Exception e = true ->
  attempt name fetch report portals results w
  = (MkWorld (files w1) (trace w1 ++ [Print (report e)]), Ok results).
Proof.
  intros Hreq Hf He. unfold attempt, try_except, bind, ret.
  rewrite Hreq, Hf, He. reflexivity.
Qed.

Lemma load_entries_same_files (path : str) (w w' : World) (prior : list json) :
  files w' = files w ->
  load_entries path w = (w, Ok prior) ->
  load_entries path w' = (w', Ok prior).
Proof.
  unfold load_entries. intros ->.
  destruct (files w path) as [text|]; [|congruence].
  destruct (json_load text) as [[]|]; congruence.
Qed.

Lemma collect_after_gather (portals : list str) (w : World) :
  collect CREDITS_FILE TEAMIO_PROFILE_DIR env portals w
  = match gather TEAMIO_PROFILE_DIR env portals w with
    | (w1, Ok []) => print nothing_to_save w1
    | (w1, Ok (r :: results)) =>
        (save_entries env (r :: results) CREDITS_FILE ;;
         print (saved_message (List.length (r :: results)))) w1
    | (w1, Raise e) => (w1, Raise e)
    end.
Proof.
  unfold collect, gather, bind.
  destruct (attempt (py "teamio") (fetch_teamio_credits TEAMIO_PROFILE_DIR env) teamio_failure portals [] w)
    as [w0 [results0|e0]]; [|reflexivity].
  destruct (attempt (py "inwork") (fetch_inwork_credits env) inwork_failure portals results0 w0)
    as [w1 [[|r results]|e1]]; reflexivity.
Qed.

Lemma startswith_app (p s : str) : startswith p (p ++ s) = true.
Proof.
  induction p as [|c p IH]; [reflexivity|].
  simpl. rewrite N.eqb_refl. exact IH.
Qed.

Lemma teamio_failure_event (e : exn) :
  is_failure_report (Print (teamio_failure e)) = true.
Proof.
  unfold is_failure_report, teamio_failure. rewrite startswith_app. reflexivity.
Qed.

Lemma inwork_failure_event (e : exn) :
  is_failure_report (Print (inwork_failure e)) = true.
Proof.
  unfold is_failure_report, inwork_failure.
  rewrite startswith_app. apply orb_true_r.
Qed.

Lemma saved_message_event (n : nat) :
  is_failure_report (Print (saved_message n)) = false.
Proof. vm_compute. reflexivity. Qed.

Lemma session_events_filtered (evs : list event) :
  forallb session_event evs = true ->
  filter is_failure_report evs = [] /\ filter is_write evs = [].
Proof.
  induction evs as [|ev evs IH]; simpl; [split; reflexivity|].
  intros E. apply andb_true_iff in E. destruct E as [Hev Hevs].
  unfold session_event in Hev. apply andb_true_iff in Hev.
  destruct Hev as [Hf Hw]. apply negb_true_iff in Hf, Hw.
  rewrite Hf, Hw. apply IH, Hevs.
Qed.

(** C3.  Both portals are requested, one driver returns a reading and the
    other raises an [Exception]: [collect] runs both drivers, returns
    normally, prints exactly one failure report, writes the log exactly
    once, and the log then reads as what it read before followed by the
    one record of the reading. *)
Theorem collect_isolates_a_failure (portals : list str) (w w1 w2 : World)
        (r : PortalCredits) (e : exn) (prior : list json) :
  requested (py "teamio") portals = true ->
  requested (py "inwork") portals = true ->
  is_Exception e = true ->
  write_fault env = None ->
  load_entries CREDITS_FILE w = (w, Ok prior) ->
  (fetch_teamio_credits TEAMIO_PROFILE_DIR env w = (w1, Ok r) /\ fetch_inwork_credits env w1 = (w2, Raise e))
  \/ (fetch_teamio_credits TEAMIO_PROFILE_DIR env w = (w1, Raise e)
      /\ fetch_inwork_credits env (MkWorld (files w1) (trace w1 ++ [Print (teamio_failure e)]))
         = (w2, Ok r)) ->
  exists w' evs evs2,
    collect CREDITS_FILE TEAMIO_PROFILE_DIR env portals w = (w', Ok tt)
    /\ trace w' = trace w ++ evs
    /\ trace w' = trace w2 ++ evs2
    /\ List.length (filter is_failure_report evs) = 1%nat
    /\ filter is_write evs
       = [Write CREDITS_FILE (json_dump (JList (prior ++ [entry_of r])))]
    /\ files w' CREDITS_FILE = Some (json_dump (JList (prior ++ [entry_of r])))
    /\ load_entries CREDITS_FILE w' = (w', Ok (prior ++ [entry_of r])).
Proof.
  intros Ht Hi He Hw Hload [[Hft Hfi] | [Hft Hfi]].
  - destruct (fetch_teamio_events TEAMIO_PROFILE_DIR env _ _ _ Hft)
      as (Hf1 & evs1 & Ht1 & Hq1).
    destruct (fetch_inwork_events env _ _ _ Hfi) as (Hf2 & evs2 & Ht2 & Hq2).
    destruct (session_events_filtered _ Hq1) as [Hr1 Hw1].
    destruct (session_events_filtered _ Hq2) as [Hr2 Hw2].
    pose (w3 := MkWorld (files w2) (trace w2 ++ [Print (inwork_failure e)])).
    assert (Hload3 : load_entries CREDITS_FILE w3 = (w3, Ok prior)).
    { apply (load_entries_same_files _ w); [|exact Hload].
      simpl. congruence. }
    pose proof (save_entries_run env [r] CREDITS_FILE w3 prior Hload3 Hw) as Hsave.
    cbn zeta in Hsave. cbn [map] in Hsave.
    eexists. exists (evs1 ++ evs2 ++ [Print (inwork_failure e);
                       Write CREDITS_FILE (json_dump (JList (prior ++ [entry_of r])));
                       Print (saved_message 1)]).
    eexists.
    split.
    { unfold collect, bind.
      rewrite (attempt_ok _ _ _ _ _ _ _ _ Ht Hft). cbn [app].
      rewrite (attempt_caught _ _ _ _ _ _ _ _ Hi Hfi He).
      fold w3. rewrite Hsave. reflexivity. }
    subst w3. cbn [trace files].
    split; [rewrite Ht2, Ht1, <- !app_assoc; reflexivity|].
    split; [rewrite <- !app_assoc; reflexivity|].
    split.
    { rewrite !filter_app, Hr1, Hr2. cbn [app filter].
      rewrite inwork_failure_event, saved_message_event. reflexivity. }
    split.
    { rewrite !filter_app, Hw1, Hw2. reflexivity. }
    split; [rewrite str_eqb_refl; reflexivity|].
    apply load_after_write.
  - destruct (fetch_teamio_events TEAMIO_PROFILE_DIR env _ _ _ Hft)
      as (Hf1 & evs1 & Ht1 & Hq1).
    destruct (fetch_inwork_events env _ _ _ Hfi) as (Hf2 & evs2 & Ht2 & Hq2).
    destruct (session_events_filtered _ Hq1) as [Hr1 Hw1].
    destruct (session_events_filtered _ Hq2) as [Hr2 Hw2].
    cbn [files trace] in Hf2, Ht2.
    assert (Hload2 : load_entries CREDITS_FILE w2 = (w2, Ok prior)).
    { apply (load_entries_same_files _ w); [|exact Hload]. congruence. }
    pose proof (save_entries_run env [r] CREDITS_FILE w2 prior Hload2 Hw) as Hsave.
    cbn zeta in Hsave. cbn [map] in Hsave.
    eexists. exists (evs1 ++ [Print (teamio_failure e)] ++ evs2
                       ++ [Write CREDITS_FILE (json_dump (JList (prior ++ [entry_of r])));
                           Print (saved_message 1)]).
    eexists.
    split.
    { unfold collect, bind.
      rewrite (attempt_caught _ _ _ _ _ _ _ _ Ht Hft He).
      rewrite (attempt_ok _ _ _ _ _ _ _ _ Hi Hfi). cbn [app].
      rewrite Hsave. reflexivity. }
    cbn [trace files].
    split; [rewrite Ht2, Ht1, <- !app_assoc; reflexivity|].
    split; [rewrite <- !app_assoc; reflexivity|].
    split.
    { rewrite !filter_app, Hr1, Hr2. cbn [app filter].
      rewrite teamio_failure_event, saved_message_event. reflexivity. }
    split.
    { rewrite !filter_app, Hw1, Hw2. reflexivity. }
    split; [rewrite str_eqb_refl; reflexivity|].
    apply load_after_write.
Qed.

Lemma not_write_filtered (evs : list event) :
  forallb not_write evs = true -> filter is_write evs = [].
Proof.
  induction evs as [|ev evs IH]; simpl; [reflexivity|].
  intros E. apply andb_true_iff in E. destruct E as [Hev Hevs].
  unfold not_write in Hev. apply negb_true_iff in Hev.
  rewrite Hev. apply IH, Hevs.
Qed.


End OrchestratorFacts.

(** ** The extractors *)

Section ExtractionFacts.
Context `{UnicodeData}.
Variable env : Env.

Lemma decimal_number_nonneg (s : str) :
  forallb isdecimal s = true -> (0 <= decimal_number s)%Z.
Proof.
  unfold decimal_number.
  assert (Hgen : forall acc, (0 <= acc)%Z -> forallb isdecimal s = true ->
                 (0 <= fold_left (fun a c => 10 * a + decimal_value c) s acc)%Z).
  { induction s as [|c s IH]; intros acc Hacc Hs; cbn [fold_left forallb] in *; [exact Hacc|].
    apply andb_true_iff in Hs. destruct Hs as [Hc Hs].
    apply IH; [|exact Hs].
    pose proof (decimal_value_range c Hc). lia. }
  apply Hgen. lia.
Qed.

(** What a successful [int] tells about its argument. *)
Lemma int_of_digits_ok (s : str) (v : Z) :
  int_of_digits s = Ok v ->
  s <> [] /\ forallb isdecimal s = true /\ v = decimal_number s /\ (0 <= v)%Z.
Proof.
  unfold int_of_digits. destruct s as [|c s]; [discriminate|].
  destruct (forallb isdecimal (c :: s)) eqn:E; [|discriminate].
  intros Hv. inversion Hv; subst.
  split; [discriminate|]. split; [reflexivity|]. split; [reflexivity|].
  apply decimal_number_nonneg, E.
Qed.

Ltac ascii_digits :=
  unfold int_of_group, int_of_digits, decimal_number; cbn;
  repeat rewrite isdecimal_ascii by reflexivity;
  repeat rewrite decimal_value_ascii by reflexivity;
  reflexivity.

Lemma int_of_1486 : int_of_group (Some (py "1486")) = Ok 1486%Z.
Proof. ascii_digits. Qed.

Lemma int_of_2 : int_of_group (Some (py "2")) = Ok 2%Z.
Proof. ascii_digits. Qed.

Lemma filter_none (f : N -> bool) (l : str) :
  Forall (fun c => f c = false) l -> filter f l = [].
Proof.
  induction 1 as [|c l Hc Hl IH]; simpl; [reflexivity|].
  rewrite Hc. exact IH.
Qed.

(** On a page without any decimal digit no pattern of either portal
    matches. *)
Lemma no_digit_no_match (text : str) :
  digit_free text ->
  search pattern_direct text = None
  /\ search pattern_reverse text = None
  /\ first_match INWORK_CREDITS_PATTERNS text = None.
Proof.
  intros Hfree. unfold search. cbn [first_match INWORK_CREDITS_PATTERNS].
  unfold search.
  rewrite !(search_digit_free _ text) by (reflexivity || exact Hfree).
  repeat split.
Qed.


(** C8.  With a locator configured, the text of its element is looked at
    first: when it holds digits that [int] reads, their value is returned
    whatever the page says; and when the text of the element cannot be
    obtained (the call raises an [Exception]), extraction goes on with
    the search of the whole page and returns what that search returns. *)
Theorem locator_first_then_fallback (pg : Page) (sel : str) :
  configured_locator env = Some sel ->
  (forall text v,
      locator_inner_text pg sel = Ok text ->
      filter isdigit text <> [] ->
      int_of_digits (filter isdigit text) = Ok v ->
      extract_teamio_credits_from_page env pg = Ok v)
  /\ (forall e,
         locator_inner_text pg sel = Raise e ->
         is_Exception e = true ->
         extract_teamio_credits_from_page env pg = teamio_whole_page pg).
Proof.
  intros Hsel. split.
  - intros text v Htext Hne Hint.
    unfold extract_teamio_credits_from_page, locator_stage, locator_attempt.
    rewrite Hsel, Htext.
    destruct (filter isdigit text) as [|c ds]; [congruence|].
    rewrite Hint. reflexivity.
  - intros e Hraise He.
    unfold extract_teamio_credits_from_page, locator_stage, locator_attempt.
    rewrite Hsel, Hraise, He. reflexivity.
Qed.

(** C10.  With a locator configured whose element is read but holds no
    digit character, extraction neither fails nor returns at the locator:
    it is the search of the whole page, the same as with no locator
    configured. *)
Theorem locator_without_digits_is_skipped (pg : Page) (sel text : str) :
  configured_locator env = Some sel ->
  locator_inner_text pg sel = Ok text ->
  Forall (fun c => isdigit c = false) text ->
  locator_stage env pg = Ok None
  /\ extract_teamio_credits_from_page env pg = teamio_whole_page pg
  /\ forall env',
      configured_locator env' = None ->
      extract_teamio_credits_from_page env pg
      = extract_teamio_credits_from_page env' pg.
Proof.
  intros Hsel Htext Hnd.
  assert (Hstage : locator_stage env pg = Ok None).
  { unfold locator_stage, locator_attempt.
    rewrite Hsel, Htext, (filter_none _ _ Hnd). reflexivity. }
  split; [exact Hstage|].
  unfold extract_teamio_credits_from_page. rewrite Hstage.
  split; [reflexivity|].
  intros env' Hnone. unfold locator_stage. rewrite Hnone. reflexivity.
Qed.

(** A prefix without a decimal digit holds no start of a match of the
    number-before-unit pattern. *)
Lemma digit_free_prefix_unmatched (pre tail : str) :
  Forall (fun c => isdecimal c = false) pre ->
  forall p, unmatched_prefix pattern_direct p pre tail = true.
Proof.
  induction 1 as [|c pre Hc Hpre IH]; intros p; [reflexivity|].
  cbn [unmatched_prefix].
  assert (E : match_here pattern_direct p ((c :: pre) ++ tail) = None).
  { unfold match_here, pattern_direct. rewrite rmatch_seq, rmatch_group.
    cbn. rewrite Hc. reflexivity. }
  rewrite E. apply IH.
Qed.

Lemma locator_stage_some (pg : Page) (v : Z) :
  locator_stage env pg = Ok (Some v) ->
  exists sel text,
    configured_locator env = Some sel
    /\ locator_inner_text pg sel = Ok text
    /\ int_of_digits (filter isdigit text) = Ok v.
Proof.
  unfold locator_stage, locator_attempt.
  destruct (configured_locator env) as [sel|] eqn:Ec; [|discriminate].
  destruct (locator_inner_text pg sel) as [text|e] eqn:Et.
  - destruct (filter isdigit text) as [|c ds] eqn:Ed; [discriminate|].
    destruct (int_of_digits (c :: ds)) as [v'|e] eqn:Ei.
    + intros Hv. inversion Hv; subst. exists sel, text.
      split; [reflexivity|]. split; [exact Et|]. rewrite Ed. exact Ei.
    + destruct (is_Exception e); discriminate.
  - destruct (is_Exception e); discriminate.
Qed.

Lemma int_of_group_ok (g : option str) (v : Z) :
  int_of_group g = Ok v ->
  exists s, g = Some s /\ s <> [] /\ forallb isdecimal s = true
            /\ v = decimal_number s /\ (0 <= v)%Z.
Proof.
  destruct g as [s|]; [|discriminate]. simpl. intros Hv.
  exists s. split; [reflexivity|]. apply int_of_digits_ok, Hv.
Qed.

(** C6, amended.  A value that Teamio extraction returns is a
    non-negative integer read in base ten from decimal digits only: at
    the locator it is the number spelt by all the digit characters of the
    element's text taken together, in order; on the whole page it is
    group 1 of the leftmost match of the first pattern that matches.  In
    particular, with no locator configured, a page text in which the line
    "1486  kreditů" occurs, with no match of the number-before-unit
    pattern starting before it and with no word character right after
    it, gives 1486. *)
Theorem teamio_extraction_value (pg : Page) :
  (forall v,
      extract_teamio_credits_from_page env pg = Ok v ->
      (0 <= v)%Z
      /\ ((exists sel text,
              configured_locator env = Some sel
              /\ locator_inner_text pg sel = Ok text
              /\ filter isdigit text <> []
              /\ forallb isdecimal (filter isdigit text) = true
              /\ v = decimal_number (filter isdigit text))
          \/ (exists body g,
                 body_inner_text pg = Ok body
                 /\ (search pattern_direct body = Some (Some g)
                     \/ (search pattern_direct body = None
                         /\ search pattern_reverse body = Some (Some g)))
                 /\ g <> []
                 /\ forallb isdecimal g = true
                 /\ v = decimal_number g)))
  /\ (forall pre post,
         configured_locator env = None ->
         body_inner_text pg = Ok (pre ++ teamio_sample ++ post) ->
         unmatched_prefix pattern_direct None pre (teamio_sample ++ post) = true ->
         word_at (hd_error post) = false ->
         extract_teamio_credits_from_page env pg = Ok 1486%Z).
Proof.
  split.
  - intros v. unfold extract_teamio_credits_from_page.
    destruct (locator_stage env pg) as [[v'|]|e] eqn:Es; [| |discriminate].
    + intros Hv. inversion Hv; subst.
      destruct (locator_stage_some _ _ Es) as (sel & text & Hsel & Htext & Hint).
      destruct (int_of_digits_ok _ _ Hint) as (Hne & Hdec & Hval & Hpos).
      split; [exact Hpos|]. left. exists sel, text.
      split; [exact Hsel|]. split; [exact Htext|]. split; [exact Hne|].
      split; [exact Hdec | exact Hval].
    + unfold teamio_whole_page.
      destruct (body_inner_text pg) as [body|e] eqn:Eb; [|discriminate].
      destruct (search pattern_direct body) as [g|] eqn:Ed.
      * intros Hv.
        destruct (int_of_group_ok _ _ Hv) as (s & -> & Hne & Hdec & Hval & Hpos).
        split; [exact Hpos|]. right. exists body, s.
        split; [reflexivity|]. split; [left; exact Ed|].
        split; [exact Hne|]. split; [exact Hdec | exact Hval].
      * destruct (search pattern_reverse body) as [g|] eqn:Er; [|discriminate].
        intros Hv.
        destruct (int_of_group_ok _ _ Hv) as (s & -> & Hne & Hdec & Hval & Hpos).
        split; [exact Hpos|]. right. exists body, s.
        split; [reflexivity|]. split; [right; split; [exact Ed | exact Er]|].
        split; [exact Hne|]. split; [exact Hdec | exact Hval].
  - intros pre post Hnone Hbody Hpre Hpost.
    unfold extract_teamio_credits_from_page, locator_stage, teamio_whole_page.
    rewrite Hnone, Hbody. unfold search.
    rewrite (search_from_skip _ _ _ _ Hpre).
    rewrite (search_from_here _ _ _ _ (direct_matches_sample _ _ Hpost)).
    apply int_of_1486.
Qed.

(** C7, amended.  The pattern "Stav kreditů: N" is tried first: whenever
    it matches, InWork extraction returns the number it captured,
    whatever the generic pattern would find.  A page text in which the
    line "Stav kreditů: 2" occurs, with no match of that pattern starting
    before it and with no decimal digit right after it, gives 2. *)
Theorem inwork_status_pattern_first (pg : Page) (text : str) :
  body_inner_text pg = Ok text ->
  (forall g,
      search inwork_status_pattern text = Some g ->
      extract_inwork_credits_from_page pg = int_of_group g)
  /\ (forall pre post,
         text = pre ++ inwork_sample ++ post ->
         unmatched_prefix inwork_status_pattern None pre (inwork_sample ++ post) = true ->
         stops Digit post ->
         extract_inwork_credits_from_page pg = Ok 2%Z).
Proof.
  intros Hbody.
  assert (Hfirst : forall g, search inwork_status_pattern text = Some g ->
                   extract_inwork_credits_from_page pg = int_of_group g).
  { intros g Hg. unfold extract_inwork_credits_from_page.
    rewrite Hbody. cbn [first_match INWORK_CREDITS_PATTERNS].
    rewrite Hg. reflexivity. }
  split; [exact Hfirst|].
  intros pre post -> Hpre Hpost.
  rewrite (Hfirst (Some (py "2"))); [apply int_of_2|].
  unfold search. rewrite (search_from_skip _ _ _ _ Hpre).
  apply search_from_here, status_matches_sample, Hpost.
Qed.

End ExtractionFacts.

(** ** The command line *)

Section CommandLineFacts.
Context `{UnicodeData} `{JsonCodec}.
Variable CREDITS_FILE : str.
Variable TEAMIO_PROFILE_DIR : str.
Variable env : Env.

Lemma lower_teamio : lower (py "teamio") = py "teamio".
Proof.
  rewrite lower_ascii; [reflexivity|].
  repeat (constructor; [reflexivity|]). constructor.
Qed.

Lemma lower_inwork : lower (py "inwork") = py "inwork".
Proof.
  rewrite lower_ascii; [reflexivity|].
  repeat (constructor; [reflexivity|]). constructor.
Qed.

(** C9, amended.  With no argument after the script name, [parse_args]
    selects teamio and inwork, in this order.  Otherwise it looks at the
    first argument only, lower-cased: when that is "teamio" or "inwork"
    (so for these two words in any letter case, and whatever arguments
    follow) it selects that one portal; for every other first argument it
    prints the usage line and exits with status 1, and [main] stops there:
    no session is opened, nothing is written and no file changes. *)
Theorem parse_args_selection (argv : list str) (w : World) :
  ((List.length argv <= 1)%nat ->
   parse_args argv w = (w, Ok [py "teamio"; py "inwork"]))
  /\ (forall prog arg more,
         argv = prog :: arg :: more ->
         (lower arg = py "teamio" -> parse_args argv w = (w, Ok [py "teamio"]))
         /\ (lower arg = py "inwork" -> parse_args argv w = (w, Ok [py "inwork"]))
         /\ (arg = py "teamio" -> parse_args argv w = (w, Ok [py "teamio"]))
         /\ (arg = py "inwork" -> parse_args argv w = (w, Ok [py "inwork"]))
         /\ (lower arg <> py "teamio" ->
             lower arg <> py "inwork" ->
             let w' := MkWorld (files w) (trace w ++ [Print usage_message]) in
             parse_args argv w = (w', Raise (SystemExit 1))
             /\ main CREDITS_FILE TEAMIO_PROFILE_DIR env argv w
                = (w', Raise (SystemExit 1))
             /\ exit_status (snd (main CREDITS_FILE TEAMIO_PROFILE_DIR env argv w))
                = 1%Z)).
Proof.
  split.
  - intros Hlen. destruct argv as [|prog [|arg more]]; try reflexivity.
    simpl in Hlen. lia.
  - intros prog arg more ->.
    assert (Ht : lower arg = py "teamio" ->
                 parse_args (prog :: arg :: more) w = (w, Ok [py "teamio"])).
    { intros E. unfold parse_args. rewrite E. reflexivity. }
    assert (Hi : lower arg = py "inwork" ->
                 parse_args (prog :: arg :: more) w = (w, Ok [py "inwork"])).
    { intros E. unfold parse_args. rewrite E. reflexivity. }
    split; [exact Ht|]. split; [exact Hi|].
    split; [intros ->; apply Ht, lower_teamio|].
    split; [intros ->; apply Hi, lower_inwork|].
    intros Hnt Hni.
    assert (Hp : parse_args (prog :: arg :: more) w
                 = (MkWorld (files w) (trace w ++ [Print usage_message]),
                    Raise (SystemExit 1))).
    { unfold parse_args.
      rewrite (str_eqb_neq _ _ Hnt), (str_eqb_neq _ _ Hni). reflexivity. }
    cbn zeta. split; [exact Hp|].
    assert (Hm : main CREDITS_FILE TEAMIO_PROFILE_DIR env (prog :: arg :: more) w
                 = (MkWorld (files w) (trace w ++ [Print usage_message]),
                    Raise (SystemExit 1))).
    { unfold main, bind. rewrite Hp. reflexivity. }
    split; [exact Hm|]. rewrite Hm. reflexivity.
Qed.

End CommandLineFacts.

(** ** The properties at sample runs *)


(** Counterexample to C2 as worded: a log file that holds a JSON list is loaded as it
    is, also when the list is not a sequence of records; the append keeps
    its elements. *)
Lemma load_entries_keeps_any_list :
  let env := sample_env None (session_showing []) (session_showing []) in
  let text := Document (JList [JInt 1]) in
  let w := disk_with text in
  well_formed_log text = false
  /\ load_entries sample_credits_file w = (w, Ok [JInt 1])
  /\ load_entries sample_credits_file w <> (w, Ok [])
  /\ files (fst (save_entries env [teamio_reading] sample_credits_file w))
           sample_credits_file
     = Some (Document (JList [JInt 1; entry_of teamio_reading])).
Proof.
  cbv zeta. split; [reflexivity|]. split; [reflexivity|].
  split; [|reflexivity].
  intros E. apply (f_equal snd) in E. vm_compute in E. discriminate E.
Qed.

Lemma load_entries_empty_on_non_list_sample :
  let env := sample_env None (session_showing []) (session_showing []) in
  load_entries sample_credits_file (disk_with (Unparsable [123; 34]))
  = (disk_with (Unparsable [123; 34]), Ok [])
  /\ load_entries sample_credits_file empty_disk = (empty_disk, Ok [])
  /\ exists w',
      save_entries env [teamio_reading] sample_credits_file
                   (disk_with (Document (JDict [])))
      = (w', Ok tt)
      /\ load_entries sample_credits_file w' = (w', Ok [entry_of teamio_reading]).
Proof.
  intros env.
  split.
  { apply (load_entries_empty_on_non_list env [] sample_credits_file
             (disk_with (Unparsable [123; 34]))).
    right. exists (Unparsable [123; 34]).
    split; [reflexivity | intros l; discriminate]. }
  split.
  { apply (load_entries_empty_on_non_list env [] sample_credits_file empty_disk).
    left. reflexivity. }
  destruct (load_entries_empty_on_non_list env [teamio_reading]
              sample_credits_file (disk_with (Document (JDict []))))
    as (_ & Happend).
  { right. exists (Document (JDict [])).
    split; [reflexivity | intros l; discriminate]. }
  destruct (Happend eq_refl) as (w' & Hsave & _ & Hload & _).
  exists w'. split; [exact Hsave | exact Hload].
Defined.

Lemma collect_isolates_a_failure_sample :
  let env := sample_env None
                        (session_showing (py "Zbývající předplatné" ++ [10] ++ teamio_sample))
                        session_not_launching in
  exists w',
    collect sample_credits_file sample_profile_dir env
            [py "teamio"; py "inwork"] empty_disk
    = (w', Ok tt)
    /\ load_entries sample_credits_file w' = (w', Ok [entry_of teamio_reading]).
Proof.
  intros env.
  pose (w1 := fst (fetch_teamio_credits sample_profile_dir env empty_disk)).
  pose (w2 := fst (fetch_inwork_credits env w1)).
  destruct (collect_isolates_a_failure sample_credits_file sample_profile_dir env
              [py "teamio"; py "inwork"] empty_disk w1 w2
              teamio_reading timeout_error [])
    as (w' & evs & evs2 & Hrun & _ & _ & _ & _ & _ & Hload).
  - reflexivity.
  - reflexivity.
  - reflexivity.
  - reflexivity.
  - reflexivity.
  - left. split; vm_compute; reflexivity.
  - exists w'. split; [exact Hrun | exact Hload].
Defined.



(** Counterexample to C6 as worded.  A page text that contains "1486  kreditů" gives
    another number when the pattern matches earlier in the text; and at the
    locator the value is not a group captured by a pattern: all the digit
    characters of the element are joined. *)
Lemma teamio_sample_not_always_1486 :
  let env := sample_env None (session_showing []) (session_showing []) in
  let env_loc := sample_env (Some (py "#credits")) (session_showing [])
                            (session_showing []) in
  occurs_in teamio_sample (py "5 credits, 1486  kreditů")
  /\ extract_teamio_credits_from_page env (page_showing (py "5 credits, 1486  kreditů"))
     = Ok 5%Z
  /\ occurs_in teamio_sample (py "21486  kreditů")
  /\ extract_teamio_credits_from_page env (page_showing (py "21486  kreditů"))
     = Ok 21486%Z
  /\ search pattern_direct (py "12 / 50") = None
  /\ search pattern_reverse (py "12 / 50") = None
  /\ extract_teamio_credits_from_page
       env_loc (page_with_element (py "12 / 50") (py "1486  kreditů"))
     = Ok 1250%Z.
Proof.
  cbv zeta.
  split; [exists (py "5 credits, "), []; reflexivity|].
  split; [reflexivity|].
  split; [exists (py "2"), []; reflexivity|].
  repeat (split; [reflexivity|]). reflexivity.
Qed.

Lemma teamio_extraction_value_sample :
  let env := sample_env None (session_showing []) (session_showing []) in
  let env_loc := sample_env (Some (py "#credits")) (session_showing [])
                            (session_showing []) in
  extract_teamio_credits_from_page
    env (page_showing (py "Zbývající předplatné: " ++ teamio_sample ++ py " (z 2000)"))
  = Ok 1486%Z
  /\ (0 <= 1486)%Z
  /\ (0 <= 1250)%Z.
Proof.
  intros env env_loc.
  split.
  - apply (proj2 (teamio_extraction_value env
                    (page_showing (py "Zbývající předplatné: " ++ teamio_sample
                                   ++ py " (z 2000)")))
             (py "Zbývající předplatné: ") (py " (z 2000)"));
      reflexivity.
  - split.
    + apply (proj1 (teamio_extraction_value env
                      (page_showing (py "Zbývající předplatné: " ++ teamio_sample)))
               1486%Z).
      reflexivity.
    + apply (proj1 (teamio_extraction_value env_loc
                      (page_with_element (py "12 / 50") (py "1486  kreditů")))
               1250%Z).
      reflexivity.
Defined.

(** Counterexample to C7 as worded: a page text that contains "Stav kreditů: 2" gives
    another number when digits follow, or when the pattern matches earlier
    in the text. *)
Lemma inwork_sample_not_always_2 :
  occurs_in inwork_sample (py "Stav kreditů: 25")
  /\ extract_inwork_credits_from_page (page_showing (py "Stav kreditů: 25"))
     = Ok 25%Z
  /\ occurs_in inwork_sample (py "Stav kreditů: 7, minule Stav kreditů: 2")
  /\ extract_inwork_credits_from_page
       (page_showing (py "Stav kreditů: 7, minule Stav kreditů: 2"))
     = Ok 7%Z.
Proof.
  split; [exists [], (py "5"); reflexivity|].
  split; [reflexivity|].
  split; [exists (py "Stav kreditů: 7, minule "), []; reflexivity|].
  reflexivity.
Qed.

Lemma inwork_status_pattern_first_sample :
  extract_inwork_credits_from_page
    (page_showing (py "Zbývá 40 kreditních bodů. " ++ inwork_sample ++ py " ks"))
  = Ok 2%Z
  /\ extract_inwork_credits_from_page
       (page_showing (py "9 kreditů, Stav kreditů: 3"))
     = Ok 3%Z.
Proof.
  split.
  - apply (proj2 (inwork_status_pattern_first
                    (page_showing (py "Zbývá 40 kreditních bodů. " ++ inwork_sample
                                   ++ py " ks"))
                    _ eq_refl)
             (py "Zbývá 40 kreditních bodů. ") (py " ks"));
      reflexivity.
  - rewrite (proj1 (inwork_status_pattern_first
                      (page_showing (py "9 kreditů, Stav kreditů: 3"))
                      _ eq_refl)
               (Some (py "3"))); reflexivity.
Defined.

Lemma locator_first_then_fallback_sample :
  let env := sample_env (Some (py "#credits")) (session_showing [])
                        (session_showing []) in
  extract_teamio_credits_from_page
    env (page_with_element (py "1 486 kr.") (py "nic"))
  = Ok 1486%Z
  /\ extract_teamio_credits_from_page env (page_showing (py "37 credits"))
     = Ok 37%Z.
Proof.
  intros env. split.
  - apply (proj1 (locator_first_then_fallback env
                    (page_with_element (py "1 486 kr.") (py "nic"))
                    (py "#credits") eq_refl)
             (py "1 486 kr.") 1486%Z).
    + reflexivity.
    + discriminate.
    + reflexivity.
  - rewrite (proj2 (locator_first_then_fallback env
                      (page_showing (py "37 credits")) (py "#credits") eq_refl)
               timeout_error eq_refl eq_refl).
    reflexivity.
Defined.

Lemma locator_without_digits_is_skipped_sample :
  let env := sample_env (Some (py "#credits")) (session_showing [])
                        (session_showing []) in
  extract_teamio_credits_from_page
    env (page_with_element (py "n/a") (py "37 credits"))
  = Ok 37%Z.
Proof.
  intros env.
  destruct (locator_without_digits_is_skipped env
              (page_with_element (py "n/a") (py "37 credits"))
              (py "#credits") (py "n/a") eq_refl eq_refl)
    as (_ & Hpage & _).
  - repeat (constructor; [reflexivity|]). constructor.
  - rewrite Hpage. reflexivity.
Defined.

(** Counterexample to C9 as worded: an argument that is neither "teamio" nor "inwork"
    is still accepted when it is one of them in another letter case. *)
Lemma parse_args_accepts_other_case :
  py "TEAMIO" <> py "teamio"
  /\ py "TEAMIO" <> py "inwork"
  /\ parse_args [script_name; py "TEAMIO"] empty_disk
     = (empty_disk, Ok [py "teamio"])
  /\ parse_args [script_name; py "InWork"] empty_disk
     = (empty_disk, Ok [py "inwork"]).
Proof.
  split; [discriminate|]. split; [discriminate|].
  split; reflexivity.
Qed.

Lemma parse_args_selection_sample :
  let env := sample_env None (session_showing []) (session_showing []) in
  parse_args [script_name] empty_disk = (empty_disk, Ok [py "teamio"; py "inwork"])
  /\ parse_args [script_name; py "inwork"] empty_disk
     = (empty_disk, Ok [py "inwork"])
  /\ main sample_credits_file sample_profile_dir env
          [script_name; py "linkedin"] empty_disk
     = (MkWorld (fun _ => None) [Print usage_message], Raise (SystemExit 1)).
Proof.
  intros env. split.
  - apply (proj1 (parse_args_selection sample_credits_file sample_profile_dir
                    env [script_name] empty_disk)).
    simpl. lia.
  - destruct (proj2 (parse_args_selection sample_credits_file sample_profile_dir
                       env [script_name; py "inwork"] empty_disk)
                script_name (py "inwork") [] eq_refl)
      as (_ & _ & _ & Hinwork & _).
    split; [apply Hinwork; reflexivity|].
    destruct (proj2 (parse_args_selection sample_credits_file sample_profile_dir
                       env [script_name; py "linkedin"] empty_disk)
                script_name (py "linkedin") [] eq_refl)
      as (_ & _ & _ & _ & Husage).
    apply Husage; discriminate.
Defined.

(** The shape of a time stamp and of a record, at the sample clock. *)
Example isoformat_sample :
  isoformat sample_clock = py "2025-11-30T09:15:42+00:00"
  /\ isoformat (DateTime 2025 1 2 3 4 5 7) = py "2025-01-02T03:04:05.000007+00:00".
Proof. split; reflexivity. Qed.

Example entry_of_sample :
  entry_of teamio_reading
  = JDict [ (py "timestamp", JStr (py "2025-11-30T09:15:42+00:00"));
            (py "portal", JStr (py "Teamio"));
            (py "credits", JInt 1486) ].
Proof. reflexivity. Qed.

(** A page without any digit, with and without a unit word. *)
Example no_digit_page_sample :
  let env := sample_env None (session_showing []) (session_showing []) in
  extract_teamio_credits_from_page env (page_showing (py "Zbývající kredity: žádné"))
  = Raise teamio_not_found
  /\ extract_inwork_credits_from_page (page_showing (py "Stav kreditů: -"))
     = Raise inwork_not_found.
Proof. split; reflexivity. Qed.

(** * Further properties *)

(** ** Numbers in decimal *)

Section DecimalFacts.
Context `{UnicodeData}.

Lemma ascii_digit_below (c : N) : ascii_isdigit c = true -> c < 128.
Proof.
  unfold ascii_isdigit. intros E. apply andb_true_iff in E.
  destruct E as [_ E]. apply N.leb_le in E. lia.
Qed.

Lemma ascii_digit_isdecimal (c : N) : ascii_isdigit c = true -> isdecimal c = true.
Proof.
  intros E. rewrite isdecimal_ascii by (apply ascii_digit_below, E). exact E.
Qed.

Lemma ascii_digits_decimal (ds : str) :
  ascii_digits ds -> forallb isdecimal ds = true.
Proof.
  intros Hds. apply forallb_forall. intros c Hc.
  unfold ascii_digits in Hds. rewrite Forall_forall in Hds.
  apply ascii_digit_isdecimal, Hds, Hc.
Qed.

Lemma uint_string_digits (d : Decimal.uint) :
  ascii_digits (bytes_of (NilEmpty.string_of_uint d)).
Proof.
  induction d; simpl; constructor; try reflexivity; assumption.
Qed.

Lemma uint_string_value (d : Decimal.uint) :
  forall acc,
    fold_left (fun a c => (10 * a + decimal_value c)%Z)
              (bytes_of (NilEmpty.string_of_uint d)) acc
    = uint_value acc d.
Proof.
  induction d; intros acc; cbn [NilEmpty.string_of_uint bytes_of fold_left uint_value];
    try reflexivity;
    rewrite decimal_value_ascii by reflexivity; apply IHd.
Qed.

Lemma uint_value_acc (d : Decimal.uint) :
  forall acc : positive,
    uint_value (Z.pos acc) d = Z.pos (Pos.of_uint_acc d acc).
Proof.
  induction d; intros acc; cbn [uint_value Pos.of_uint_acc];
    try reflexivity;
    rewrite <- IHd; f_equal; lia.
Qed.

Lemma uint_value_zero (d : Decimal.uint) :
  uint_value 0 d = Z.of_N (Pos.of_uint d).
Proof.
  induction d; cbn [uint_value Pos.of_uint]; try reflexivity;
    try exact IHd;
    cbn [Z.of_N]; rewrite <- uint_value_acc; reflexivity.
Qed.

(** [int(str(n)) == n] for a non-negative [n], and [str(n)] is a
    non-empty run of ASCII digits. *)
Lemma str_of_int_digits (n : Z) :
  (0 <= n)%Z ->
  ascii_digits (str_of_int n)
  /\ str_of_int n <> []
  /\ decimal_number (str_of_int n) = n.
Proof.
  intros Hn. unfold str_of_int, decimal_number.
  destruct n as [|p|p]; [| |lia].
  - cbn. split; [repeat constructor|]. split; [discriminate|].
    rewrite decimal_value_ascii by reflexivity. reflexivity.
  - cbn [Z.to_int NilZero.string_of_int NilZero.string_of_uint].
    assert (Hnil : Pos.to_uint p <> Decimal.Nil)
      by apply DecimalPos.Unsigned.to_uint_nonnil.
    assert (Hs : NilZero.string_of_uint (Pos.to_uint p)
                 = NilEmpty.string_of_uint (Pos.to_uint p)).
    { unfold NilZero.string_of_uint.
      destruct (Pos.to_uint p); [congruence | reflexivity ..]. }
    unfold NilZero.string_of_uint in Hs |- *. rewrite Hs.
    assert (Hv : fold_left (fun a c => (10 * a + decimal_value c)%Z)
                   (bytes_of (NilEmpty.string_of_uint (Pos.to_uint p))) 0%Z
                 = Z.pos p).
    { rewrite uint_string_value, uint_value_zero,
        DecimalPos.Unsigned.of_to. reflexivity. }
    split; [apply uint_string_digits|]. split; [|exact Hv].
    intros E. rewrite E in Hv. discriminate Hv.
Qed.

Lemma int_of_str_of_int (n : Z) :
  (0 <= n)%Z -> int_of_group (Some (str_of_int n)) = Ok n.
Proof.
  intros Hn. destruct (str_of_int_digits n Hn) as (Hd & Hne & Hv).
  unfold int_of_group, int_of_digits.
  destruct (str_of_int n) as [|c ds] eqn:E; [congruence|].
  rewrite (ascii_digits_decimal _ Hd), Hv. reflexivity.
Qed.

End DecimalFacts.

(** ** The patterns on every number *)

Section PatternFacts.
Context `{U : UnicodeData} `{L : @UnicodeLaws U}.

Lemma ascii_space_below (c : N) : ascii_isspace c = true -> c <= 32.
Proof.
  unfold ascii_isspace. intros E. apply orb_true_iff in E.
  destruct E as [E | E]; apply andb_true_iff in E; destruct E as [_ E];
    apply N.leb_le in E; lia.
Qed.

Lemma blank_char (c : N) :
  ascii_isspace c = true ->
  isspace c = true /\ isdecimal c = false /\ isword c = false.
Proof.
  intros E. pose proof (ascii_space_below c E) as Hc.
  assert (Hlt : c < 128) by lia.
  assert (Hd : ascii_isdigit c = false).
  { unfold ascii_isdigit. apply andb_false_iff. left. apply N.leb_gt. lia. }
  assert (Hu : ascii_isupper c = false).
  { unfold ascii_isupper. apply andb_false_iff. left. apply N.leb_gt. lia. }
  assert (Hl : ascii_islower c = false).
  { unfold ascii_islower. apply andb_false_iff. left. apply N.leb_gt. lia. }
  split; [rewrite isspace_ascii by exact Hlt; exact E|].
  split; [rewrite isdecimal_ascii by exact Hlt; exact Hd|].
  unfold isword. rewrite isalnum_ascii by exact Hlt.
  unfold ascii_isalnum. rewrite Hd, Hu, Hl. simpl.
  apply N.eqb_neq. lia.
Qed.

Lemma blank_all_space (ws : str) :
  ascii_blank ws -> Forall (fun y => cmatch Space y = true) ws.
Proof.
  intros Hws. eapply Forall_impl; [|exact Hws].
  intros c Hc. apply (blank_char c Hc).
Qed.

Lemma digits_all_digit (ds : str) :
  ascii_digits ds -> Forall (fun y => cmatch Digit y = true) ds.
Proof.
  intros Hds. eapply Forall_impl; [|exact Hds].
  intros c Hc. apply ascii_digit_isdecimal, Hc.
Qed.

Lemma stops_digit_blank (ws tail : str) :
  ascii_blank ws -> stops Digit tail -> stops Digit (ws ++ tail).
Proof.
  intros Hws Htail. destruct Hws as [|c ws Hc Hws]; [exact Htail|].
  simpl. apply (blank_char c Hc).
Qed.

Lemma ascii_digit_not_space (c : N) :
  ascii_isdigit c = true -> isspace c = false.
Proof.
  intros E. pose proof (ascii_digit_below c E) as Hlt.
  rewrite isspace_ascii by exact Hlt.
  unfold ascii_isdigit in E. apply andb_true_iff in E. destruct E as [E1 E2].
  apply N.leb_le in E1, E2. unfold ascii_isspace.
  apply orb_false_iff. split; apply andb_false_iff; right; apply N.leb_gt; lia.
Qed.

Lemma ascii_digit_word (c : N) : ascii_isdigit c = true -> isword c = true.
Proof.
  intros E. unfold isword.
  rewrite isalnum_ascii by (apply ascii_digit_below, E).
  unfold ascii_isalnum. rewrite E. reflexivity.
Qed.

Lemma stops_space_digits (ds tail : str) :
  ascii_digits ds -> ds <> [] -> stops Space (ds ++ tail).
Proof.
  intros Hds Hne. destruct Hds as [|c ds Hc Hds]; [congruence|].
  simpl. apply ascii_digit_not_space, Hc.
Qed.

(** A pattern without a group passes the group it was given to its
    continuation. *)
Lemma star_from_reports (c : cclass) (k : mstate -> option (option str)) :
  (forall s, k s = None \/ k s = Some (grp s)) ->
  forall xs p g, star_from c k p xs g = None \/ star_from c k p xs g = Some g.
Proof.
  intros Hk. induction xs as [|x xs IH]; intros p g; simpl.
  - apply (Hk (MState p [] g)).
  - destruct (cmatch c x); [|apply (Hk (MState p (x :: xs) g))].
    destruct (IH (Some x) g) as [E | E]; rewrite E; [|right; reflexivity].
    apply (Hk (MState p (x :: xs) g)).
Qed.

Lemma rmatch_reports (r : regex) :
  group_free r = true ->
  forall k : mstate -> option (option str),
    (forall s, k s = None \/ k s = Some (grp s)) ->
    forall s, rmatch r k s = None \/ rmatch r k s = Some (grp s).
Proof.
  induction r; simpl; intros Hr k Hk s; try discriminate.
  - apply Hk.
  - destruct s as [p [|x xs] g]; simpl; [left; reflexivity|].
    destruct (cmatch c x); [|left; reflexivity].
    apply (Hk (MState (Some x) xs g)).
  - destruct s as [p xs g]. apply star_from_reports, Hk.
  - destruct s as [p [|x xs] g]; simpl; [left; reflexivity|].
    destruct (cmatch c x); [|left; reflexivity].
    apply star_from_reports, Hk.
  - destruct (at_boundary s); [apply Hk | left; reflexivity].
  - apply andb_true_iff in Hr. destruct Hr as [Ha Hb].
    apply IHr1; [exact Ha|]. intros s'. apply IHr2; assumption.
  - apply andb_true_iff in Hr. destruct Hr as [Ha Hb].
    destruct (IHr1 Ha k Hk s) as [E | E]; rewrite E; [|right; reflexivity].
    apply IHr2; assumption.
  - destruct (IHr Hr k Hk s) as [E | E]; rewrite E; [|right; reflexivity].
    apply Hk.
Qed.

Lemma alt_found_left {A} (a b : regex) (k : mstate -> option A) (s : mstate) :
  rmatch a k s <> None -> rmatch (Alt a b) k s <> None.
Proof. simpl. destruct (rmatch a k s); congruence. Qed.

Lemma alt_found_right {A} (a b : regex) (k : mstate -> option A) (s : mstate) :
  rmatch b k s <> None -> rmatch (Alt a b) k s <> None.
Proof. simpl. destruct (rmatch a k s); congruence. Qed.

Lemma opt_found_taken {A} (a : regex) (k : mstate -> option A) (s : mstate) :
  rmatch a k s <> None -> rmatch (Opt a) k s <> None.
Proof. simpl. destruct (rmatch a k s); congruence. Qed.

Lemma opt_found_skipped {A} (a : regex) (k : mstate -> option A) (s : mstate) :
  k s <> None -> rmatch (Opt a) k s <> None.
Proof. simpl. destruct (rmatch a k s); congruence. Qed.

Lemma boundary_after_word (c : N) (post : str) (g : option str) :
  isword c = true ->
  word_at (hd_error post) = false ->
  at_boundary (MState (Some c) post g) = true.
Proof.
  intros Hc Hpost. unfold at_boundary. cbn [prev rest word_at].
  rewrite Hc, Hpost. reflexivity.
Qed.

Lemma ascii_letter_word (c : N) :
  ascii_islower c = true -> isword c = true.
Proof.
  intros E. unfold isword.
  assert (Hlt : c < 128).
  { unfold ascii_islower in E. apply andb_true_iff in E.
    destruct E as [_ E]. apply N.leb_le in E. lia. }
  rewrite isalnum_ascii by exact Hlt.
  unfold ascii_isalnum. rewrite E, orb_true_r. reflexivity.
Qed.

(** The unit word is found where one of its forms stands and no word
    character follows. *)
Lemma word_pattern_found (u post : str) (p : option N) (g : option str) :
  In u unit_words ->
  word_at (hd_error post) = false ->
  rmatch word_pattern (fun s => Some (grp s)) (MState p (u ++ post) g) = Some g.
Proof.
  intros Hu Hpost.
  destruct (rmatch_reports word_pattern eq_refl (fun s => Some (grp s))
              (fun s => or_intror eq_refl) (MState p (u ++ post) g))
    as [E | E]; [exfalso; revert E | exact E].
  unfold word_pattern.
  destruct Hu as [<- | [<- | [<- | [<- | [<- | []]]]]].
  - apply alt_found_left.
    rewrite rmatch_seq, rmatch_lits, rmatch_seq.
    apply opt_found_skipped. rewrite rmatch_wordb; [discriminate|].
    apply boundary_after_word; [apply ascii_letter_word; reflexivity | exact Hpost].
  - apply alt_found_left.
    change (py "kreditů" ++ post) with (py "kredit" ++ (367 :: post)).
    rewrite rmatch_seq, rmatch_lits, rmatch_seq.
    apply opt_found_taken, alt_found_left.
    rewrite rmatch_chr, rmatch_wordb; [discriminate|].
    apply boundary_after_word; [|exact Hpost].
    unfold isword. rewrite isalnum_u_ring. reflexivity.
  - apply alt_found_left.
    change (py "kredity" ++ post) with (py "kredit" ++ (121 :: post)).
    rewrite rmatch_seq, rmatch_lits, rmatch_seq.
    apply opt_found_taken, alt_found_right.
    rewrite rmatch_chr, rmatch_wordb; [discriminate|].
    apply boundary_after_word; [apply ascii_letter_word; reflexivity | exact Hpost].
  - apply alt_found_right.
    rewrite rmatch_seq, rmatch_lits, rmatch_seq.
    apply opt_found_skipped. rewrite rmatch_wordb; [discriminate|].
    apply boundary_after_word; [apply ascii_letter_word; reflexivity | exact Hpost].
  - apply alt_found_right.
    change (py "credits" ++ post) with (py "credit" ++ (115 :: post)).
    rewrite rmatch_seq, rmatch_lits, rmatch_seq.
    apply opt_found_taken.
    rewrite rmatch_chr, rmatch_wordb; [discriminate|].
    apply boundary_after_word; [apply ascii_letter_word; reflexivity | exact Hpost].
Qed.

Lemma unit_word_head (u tail : str) :
  In u unit_words -> stops Digit (u ++ tail) /\ stops Space (u ++ tail).
Proof.
  intros Hu.
  destruct Hu as [<- | [<- | [<- | [<- | [<- | []]]]]]; cbn;
    rewrite isdecimal_ascii, isspace_ascii by reflexivity; split; reflexivity.
Qed.

(** The number-before-unit pattern at a number, white space and a unit
    word. *)
Lemma direct_matches_number (p : option N) (ds ws u post : str) :
  ascii_digits ds -> ds <> [] ->
  ascii_blank ws ->
  In u unit_words ->
  word_at (hd_error post) = false ->
  match_here pattern_direct p (ds ++ ws ++ u ++ post) = Some (Some ds).
Proof.
  intros Hds Hne Hws Hu Hpost.
  destruct ds as [|d ds]; [congruence|].
  unfold match_here, pattern_direct.
  rewrite rmatch_seq, rmatch_group.
  apply plus_greedy.
  - apply digits_all_digit, Hds.
  - apply stops_digit_blank; [exact Hws | apply unit_word_head, Hu].
  - cbn [prev rest grp]. rewrite captured_app.
    rewrite rmatch_seq, rmatch_star.
    apply star_from_greedy.
    + apply blank_all_space, Hws.
    + apply unit_word_head, Hu.
    + apply word_pattern_found; assumption.
Qed.

(** The "Stav kreditů: N" pattern at its own wording, with any white
    space where the pattern allows it. *)
Lemma status_matches_number (p : option N) (ws1 ws2 ws3 ds post : str) :
  ascii_blank ws1 -> ws1 <> [] ->
  ascii_blank ws2 -> ascii_blank ws3 ->
  ascii_digits ds -> ds <> [] ->
  stops Digit post ->
  match_here inwork_status_pattern p
    (py "Stav" ++ ws1 ++ py "kreditů" ++ ws2 ++ [58] ++ ws3 ++ ds ++ post)
  = Some (Some ds).
Proof.
  intros Hw1 Hn1 Hw2 Hw3 Hds Hne Hpost.
  destruct ws1 as [|c1 ws1]; [congruence|].
  destruct ds as [|d ds]; [congruence|].
  unfold match_here, inwork_status_pattern.
  rewrite rmatch_seq, rmatch_lits, rmatch_seq.
  apply plus_greedy.
  - apply blank_all_space, Hw1.
  - cbn. rewrite isspace_ascii by reflexivity. reflexivity.
  - rewrite rmatch_seq, rmatch_lits, rmatch_seq, rmatch_star.
    apply star_from_greedy.
    + apply blank_all_space, Hw2.
    + cbn. rewrite isspace_ascii by reflexivity. reflexivity.
    + change ([58] ++ ws3 ++ (d :: ds) ++ post)
        with (58 :: (ws3 ++ (d :: ds) ++ post)).
      rewrite rmatch_seq, rmatch_chr, rmatch_seq, rmatch_star.
      apply star_from_greedy.
      * apply blank_all_space, Hw3.
      * apply (stops_space_digits (d :: ds) post Hds Hne).
      * rewrite rmatch_group.
        apply plus_greedy; [apply digits_all_digit, Hds | exact Hpost |].
        cbn [prev rest grp]. rewrite captured_app. reflexivity.
Qed.

(** The generic InWork pattern at a number that starts a word, white space
    and "kredit", whatever follows. *)
Lemma generic_matches_number (p : option N) (ds ws post : str) :
  word_at p = false ->
  ascii_digits ds -> ds <> [] ->
  ascii_blank ws ->
  match_here inwork_generic_pattern p (ds ++ ws ++ py "kredit" ++ post)
  = Some (Some ds).
Proof.
  intros Hp Hds Hne Hws.
  destruct ds as [|d ds]; [congruence|].
  unfold match_here, inwork_generic_pattern.
  rewrite rmatch_seq, rmatch_wordb.
  2:{ unfold at_boundary. cbn [prev rest hd_error app word_at].
      rewrite Hp. inversion Hds; subst.
      rewrite ascii_digit_word by assumption. reflexivity. }
  rewrite rmatch_seq, rmatch_group.
  apply plus_greedy.
  - apply digits_all_digit, Hds.
  - apply stops_digit_blank; [exact Hws|].
    cbn. rewrite isdecimal_ascii by reflexivity. reflexivity.
  - cbn [prev rest grp]. rewrite captured_app.
    rewrite rmatch_seq, rmatch_star.
    apply star_from_greedy.
    + apply blank_all_space, Hws.
    + cbn. rewrite isspace_ascii by reflexivity. reflexivity.
    + rewrite rmatch_lits. reflexivity.
Qed.

End PatternFacts.

(** ** The extractors on every number *)

Section ExtractionNumbers.
Context `{U : UnicodeData} `{L : @UnicodeLaws U}.
Variable env : Env.

Lemma filter_all (f : N -> bool) (l : str) :
  Forall (fun c => f c = true) l -> filter f l = l.
Proof.
  induction 1 as [|c l Hc Hl IH]; simpl; [reflexivity|].
  rewrite Hc, IH. reflexivity.
Qed.

Lemma generic_digit_free_prefix (pre tail : str) :
  digit_free pre ->
  forall p, unmatched_prefix inwork_generic_pattern p pre tail = true.
Proof.
  induction 1 as [|c pre Hc Hpre IH]; intros p; [reflexivity|].
  cbn [unmatched_prefix].
  assert (E : match_here inwork_generic_pattern p ((c :: pre) ++ tail) = None).
  { unfold match_here, inwork_generic_pattern. rewrite rmatch_seq.
    cbn [rmatch]. destruct (at_boundary _); [|reflexivity].
    cbn. rewrite Hc. reflexivity. }
  rewrite E. apply IH.
Qed.




(** X4.  A page whose text holds no decimal digit gives no value: with
    nothing from the locator step, Teamio extraction raises its not-found
    error, and InWork extraction raises its own. *)
Theorem no_digit_no_value (pg : Page) (text : str) :
  body_inner_text pg = Ok text ->
  digit_free text ->
  (locator_stage env pg = Ok None ->
   extract_teamio_credits_from_page env pg = Raise teamio_not_found)
  /\ extract_inwork_credits_from_page pg = Raise inwork_not_found.
Proof.
  intros Hbody Hfree.
  destruct (no_digit_no_match text Hfree) as (Hd & Hr & Hi).
  split.
  - intros Hloc. unfold extract_teamio_credits_from_page, teamio_whole_page.
    rewrite Hloc, Hbody, Hd, Hr. reflexivity.
  - unfold extract_inwork_credits_from_page. rewrite Hbody, Hi. reflexivity.
Qed.


(** X6.  Teamio, locator: when the digit characters of the element's text
    are not all decimal digits (a superscript, say), [int] raises
    [ValueError] inside the [try]; extraction does not fail there and is
    the search of the whole page. *)
Theorem locator_non_decimal_falls_back (pg : Page) (sel text : str) :
  configured_locator env = Some sel ->
  locator_inner_text pg sel = Ok text ->
  forallb isdecimal (filter isdigit text) = false ->
  extract_teamio_credits_from_page env pg = teamio_whole_page pg.
Proof.
  intros Hsel Htext Hnd.
  unfold extract_teamio_credits_from_page, locator_stage, locator_attempt.
  rewrite Hsel, Htext.
  destruct (filter isdigit text) as [|c ds] eqn:Ef; [discriminate|].
  unfold int_of_digits. rewrite Hnd. reflexivity.
Qed.

(** X7.  Teamio, locator: what [except Exception] does not catch is not
    swallowed.  When reading the element raises [KeyboardInterrupt] or a
    cancellation, extraction raises it and the page is not searched; and
    when the locator is unset or the empty string, the element is never
    read. *)
Theorem locator_interrupt_propagates (pg : Page) :
  (forall sel e,
      configured_locator env = Some sel ->
      locator_inner_text pg sel = Raise e ->
      is_Exception e = false ->
      extract_teamio_credits_from_page env pg = Raise e)
  /\ (TEAMIO_CREDITS_LOCATOR env = None \/ TEAMIO_CREDITS_LOCATOR env = Some [] ->
      extract_teamio_credits_from_page env pg = teamio_whole_page pg).
Proof.
  split.
  - intros sel e Hsel Hraise He.
    unfold extract_teamio_credits_from_page, locator_stage, locator_attempt.
    rewrite Hsel, Hraise, He. reflexivity.
  - intros Hloc.
    unfold extract_teamio_credits_from_page, locator_stage, configured_locator.
    destruct Hloc as [-> | ->]; reflexivity.
Qed.

End ExtractionNumbers.

(** ** The log under repeated appends *)

Section StoreComposition.
Context `{JsonCodec}.
Variable env : Env.


End StoreComposition.

(** ** The session drivers *)

Section DriverFacts.
Context `{UnicodeData} `{JsonCodec}.
Variable TEAMIO_PROFILE_DIR : str.
Variable env : Env.

Lemma bind_ok_inv {A C} (m : M A) (k : A -> M C) (w w' : World) (c : C) :
  bind m k w = (w', Ok c) ->
  exists a w1, m w = (w1, Ok a) /\ k a w1 = (w', Ok c).
Proof.
  unfold bind. destruct (m w) as [w1 [a|e]]; [|discriminate].
  intros E. exists a, w1. split; [reflexivity | exact E].
Qed.

Lemma await_ok_inv (p : portal_id) (ss : Session) (s : site) (w w' : World)
      (u : unit) :
  await p ss s w = (w', Ok u) ->
  fault ss s = None /\ files w' = files w.
Proof.
  unfold await. destruct (fault ss s); [discriminate|].
  intros E. inversion E; subst. split; reflexivity.
Qed.

Lemma print_ok_inv (line : str) (w w' : World) (u : unit) :
  print line w = (w', Ok u) -> files w' = files w.
Proof.
  unfold print, emit. intros E. inversion E; subst. reflexivity.
Qed.

Lemma extract_teamio_nonneg (pg : Page) (v : Z) :
  extract_teamio_credits_from_page env pg = Ok v -> (0 <= v)%Z.
Proof.
  unfold extract_teamio_credits_from_page.
  destruct (locator_stage env pg) as [[v'|]|e] eqn:Es; [| |discriminate].
  - intros Hv. inversion Hv; subst.
    destruct (locator_stage_some _ _ _ Es) as (sel & text & _ & _ & Hint).
    apply (int_of_digits_ok _ _ Hint).
  - unfold teamio_whole_page.
    destruct (body_inner_text pg) as [body|e]; [|discriminate].
    destruct (search pattern_direct body) as [g|].
    + intros Hv. destruct (int_of_group_ok _ _ Hv) as (s & _ & _ & _ & _ & Hpos).
      exact Hpos.
    + destruct (search pattern_reverse body) as [g|]; [|discriminate].
      intros Hv. destruct (int_of_group_ok _ _ Hv) as (s & _ & _ & _ & _ & Hpos).
      exact Hpos.
Qed.

Lemma extract_inwork_nonneg (pg : Page) (v : Z) :
  extract_inwork_credits_from_page pg = Ok v -> (0 <= v)%Z.
Proof.
  unfold extract_inwork_credits_from_page.
  destruct (body_inner_text pg) as [body|e]; [|discriminate].
  destruct (first_match INWORK_CREDITS_PATTERNS body) as [g|]; [|discriminate].
  intros Hv. destruct (int_of_group_ok _ _ Hv) as (s & _ & _ & _ & _ & Hpos).
  exact Hpos.
Qed.

Ltac bind_inv H :=
  let a := fresh "a" in
  let w := fresh "w" in
  let Hs := fresh "Hstep" in
  apply bind_ok_inv in H; destruct H as (a & w & Hs & H).

Ltac steps_inv :=
  repeat match goal with
    | Hs : await _ _ _ _ = (_, Ok _) |- _ =>
        apply await_ok_inv in Hs; destruct Hs as [? ?]
    | Hs : print _ _ = (_, Ok _) |- _ => apply print_ok_inv in Hs
    end.

(** X9.  A reading that a session driver returns carries the name of its
    portal, the time of the session's clock, and as credits the value the
    extractor returned on the session's page, which is not negative; the
    driver returned it only because every awaited call of the session
    succeeded, and it changed no file. *)
Theorem fetch_reading_shape (w w' : World) (r : PortalCredits) :
  (fetch_teamio_credits TEAMIO_PROFILE_DIR env w = (w', Ok r) ->
   portal r = py "Teamio"
   /\ timestamp r = now (teamio_session env)
   /\ extract_teamio_credits_from_page env (page (teamio_session env))
      = Ok (credits r)
   /\ (0 <= credits r)%Z
   /\ teamio_profile_exists env = true
   /\ (forall s, fault (teamio_session env) s = None)
   /\ files w' = files w)
  /\ (fetch_inwork_credits env w = (w', Ok r) ->
      portal r = py "InWork"
      /\ timestamp r = now (inwork_session env)
      /\ extract_inwork_credits_from_page (page (inwork_session env))
         = Ok (credits r)
      /\ (0 <= credits r)%Z
      /\ (forall s, s <> AtGotoAgain -> s <> AtIdleAgain ->
                    fault (inwork_session env) s = None)
      /\ files w' = files w).
Proof.
  split.
  - unfold fetch_teamio_credits.
    destruct (teamio_profile_exists env); [|discriminate].
    cbn [negb]. intros Hrun.
    do 13 bind_inv Hrun.
    unfold ret in Hrun. inversion Hrun; subst. clear Hrun.
    unfold lift in Hstep9. inversion Hstep9; subst.
    steps_inv. cbn [portal timestamp credits].
    split; [reflexivity|]. split; [reflexivity|].
    split; [assumption|].
    split; [eapply extract_teamio_nonneg; eassumption|].
    split; [reflexivity|].
    split; [intros s; destruct s; assumption|]. congruence.
  - unfold fetch_inwork_credits. intros Hrun.
    do 11 bind_inv Hrun.
    unfold ret in Hrun. inversion Hrun; subst. clear Hrun.
    unfold lift in Hstep7. inversion Hstep7; subst.
    steps_inv. cbn [portal timestamp credits].
    split; [reflexivity|]. split; [reflexivity|].
    split; [assumption|].
    split; [eapply extract_inwork_nonneg; eassumption|].
    split; [intros s Hs1 Hs2; destruct s; congruence|]. congruence.
Qed.

End DriverFacts.

Section DriverClose.
Context `{UnicodeData} `{JsonCodec}.
Variable TEAMIO_PROFILE_DIR : str.
Variable env : Env.

Ltac split_faults H :=
  repeat match type of H with
    | context [fault ?ss ?s] =>
        let E := fresh "Ef" in
        destruct (fault ss s) eqn:E; cbn -[py isoformat str_of_int app] in H
    end.

Ltac close_trace H :=
  inversion H; subst; clear H;
  eexists; split;
  [ cbn [trace]; rewrite <- ?app_assoc; reflexivity
  | first [ reflexivity | intros _; reflexivity | intros Hc; congruence ] ].

(** X10.  The session drivers close the browser only on the way to a
    reading: a run that returns a reading has called [close] once, and a
    run that raises has not called it at all, unless it is [close] itself
    that raised (the drivers have no [finally]). *)
Theorem fetch_closes_only_on_success (w w' : World) :
  (forall r,
      fetch_teamio_credits TEAMIO_PROFILE_DIR env w = (w', r) ->
      exists evs,
        trace w' = trace w ++ evs
        /\ match r with
           | Ok _ => List.length (filter is_close evs) = 1%nat
           | Raise _ =>
               fault (teamio_session env) AtClose = None ->
               List.length (filter is_close evs) = 0%nat
           end)
  /\ (forall r,
         fetch_inwork_credits env w = (w', r) ->
         exists evs,
           trace w' = trace w ++ evs
           /\ match r with
              | Ok _ => List.length (filter is_close evs) = 1%nat
              | Raise _ =>
                  fault (inwork_session env) AtClose = None ->
                  List.length (filter is_close evs) = 0%nat
              end).
Proof.
  split.
  - intros r Hrun.
    unfold fetch_teamio_credits, bind, await, print, emit, lift, raise, ret in Hrun.
    destruct (teamio_profile_exists env); cbn -[py isoformat str_of_int app] in Hrun.
    + split_faults Hrun;
        try (close_trace Hrun; fail);
        destruct (extract_teamio_credits_from_page env (page (teamio_session env)));
        cbn -[py isoformat str_of_int app] in Hrun;
        split_faults Hrun; close_trace Hrun.
    + inversion Hrun; subst. exists []. split; [symmetry; apply app_nil_r|].
      intros _. reflexivity.
  - intros r Hrun.
    unfold fetch_inwork_credits, bind, await, print, emit, lift, raise, ret in Hrun.
    cbn -[py isoformat str_of_int app] in Hrun.
    split_faults Hrun;
      try (close_trace Hrun; fail);
      destruct (extract_inwork_credits_from_page (page (inwork_session env)));
      cbn -[py isoformat str_of_int app] in Hrun;
      split_faults Hrun; close_trace Hrun.
Qed.

End DriverClose.

(** ** More on the orchestrator *)

Section CollectFacts.
Context `{UnicodeData} `{JsonCodec}.
Variable CREDITS_FILE : str.
Variable TEAMIO_PROFILE_DIR : str.
Variable env : Env.

Ltac bind_inv H :=
  let a := fresh "a" in
  let w := fresh "w" in
  let Hs := fresh "Hstep" in
  apply bind_ok_inv in H; destruct H as (a & w & Hs & H).

Lemma fetch_teamio_nonneg (w w' : World) (r : PortalCredits) :
  fetch_teamio_credits TEAMIO_PROFILE_DIR env w = (w', Ok r) ->
  (0 <= credits r)%Z.
Proof.
  unfold fetch_teamio_credits.
  destruct (teamio_profile_exists env); [|discriminate].
  cbn [negb]. intros Hrun.
  do 13 bind_inv Hrun.
  unfold ret in Hrun. inversion Hrun; subst.
  unfold lift in Hstep9. inversion Hstep9; subst.
  cbn [credits]. eapply extract_teamio_nonneg. eassumption.
Qed.

Lemma fetch_inwork_nonneg (w w' : World) (r : PortalCredits) :
  fetch_inwork_credits env w = (w', Ok r) -> (0 <= credits r)%Z.
Proof.
  unfold fetch_inwork_credits. intros Hrun.
  do 11 bind_inv Hrun.
  unfold ret in Hrun. inversion Hrun; subst.
  unfold lift in Hstep7. inversion Hstep7; subst.
  cbn [credits]. eapply extract_inwork_nonneg. eassumption.
Qed.

(** What an attempt leaves in the list of results. *)
Lemma attempt_ok_inv (name : str) (fetch : M PortalCredits)
      (report : exn -> str) (portals : list str)
      (results results' : list PortalCredits) (w w' : World) :
  attempt name fetch report portals results w = (w', Ok results') ->
  results' = results
  \/ exists r w0, fetch w = (w0, Ok r) /\ results' = results ++ [r].
Proof.
  unfold attempt, try_except, bind, ret, print, emit.
  destruct (requested name portals).
  - destruct (fetch w) as [w0 [r|e]].
    + intros E. inversion E; subst. right. eexists. eexists. split; reflexivity.
    + destruct (is_Exception e); intros E; inversion E; subst.
      left. reflexivity.
  - intros E. inversion E; subst. left. reflexivity.
Qed.

Lemma gather_results (portals : list str) (w w1 : World)
      (results : list PortalCredits) :
  gather TEAMIO_PROFILE_DIR env portals w = (w1, Ok results) ->
  Forall (fun r => (0 <= credits r)%Z) results
  /\ (List.length results <= 2)%nat.
Proof.
  unfold gather. intros Hrun. bind_inv Hrun.
  apply attempt_ok_inv in Hstep, Hrun.
  destruct Hstep as [-> | (rt & wt & Hft & ->)];
    destruct Hrun as [-> | (ri & wi & Hfi & ->)]; cbn [app].
  - split; [constructor | simpl; lia].
  - split; [|simpl; lia].
    repeat constructor. eapply fetch_inwork_nonneg, Hfi.
  - split; [|simpl; lia].
    repeat constructor. eapply fetch_teamio_nonneg, Hft.
  - split; [|simpl; lia].
    repeat constructor;
      [eapply fetch_teamio_nonneg, Hft | eapply fetch_inwork_nonneg, Hfi].
Qed.

(** The ways a run of [collect] can end, after the two attempts. *)
Lemma collect_cases (portals : list str) (w w' : World) (r : result unit) :
  collect CREDITS_FILE TEAMIO_PROFILE_DIR env portals w = (w', r) ->
  exists w1 rg,
    gather TEAMIO_PROFILE_DIR env portals w = (w1, rg)
    /\ ((exists e, rg = Raise e /\ w' = w1 /\ r = Raise e)
        \/ (rg = Ok []
            /\ w' = MkWorld (files w1) (trace w1 ++ [Print nothing_to_save])
            /\ r = Ok tt)
        \/ (exists results e,
               rg = Ok results /\ results <> []
               /\ write_fault env = Some e /\ w' = w1 /\ r = Raise e)
        \/ (exists results prior,
               rg = Ok results /\ results <> []
               /\ write_fault env = None
               /\ load_entries CREDITS_FILE w1 = (w1, Ok prior)
               /\ w' = MkWorld
                         (fun p => if str_eqb p CREDITS_FILE
                                   then Some (json_dump (JList (prior ++ map entry_of results)))
                                   else files w1 p)
                         (trace w1
                          ++ [Write CREDITS_FILE
                                    (json_dump (JList (prior ++ map entry_of results)));
                              Print (saved_message (List.length results))])
               /\ r = Ok tt)).
Proof.
  rewrite collect_after_gather.
  destruct (gather TEAMIO_PROFILE_DIR env portals w) as [w1 [[|r1 results]|e]] eqn:Eg;
    intros Hrun; exists w1; eexists; (split; [reflexivity|]).
  - right. left. unfold print, emit in Hrun. inversion Hrun; subst. auto.
  - destruct (load_entries_pure CREDITS_FILE w1) as [prior Hl].
    destruct (write_fault env) as [e|] eqn:Hw.
    + right. right. left. exists (r1 :: results), e.
      unfold bind, save_entries, bind in Hrun. rewrite Hl in Hrun.
      unfold write_json in Hrun. rewrite Hw in Hrun.
      inversion Hrun; subst.
      split; [reflexivity|]. split; [discriminate|]. auto.
    + right. right. right. exists (r1 :: results), prior.
      unfold bind in Hrun.
      rewrite (save_entries_run env (r1 :: results) CREDITS_FILE w1 prior Hl Hw)
        in Hrun.
      unfold print, emit in Hrun. cbn [files trace] in Hrun.
      rewrite <- app_assoc in Hrun. inversion Hrun; subst.
      split; [reflexivity|]. split; [discriminate|]. auto.
  - left. exists e. inversion Hrun; subst. auto.
Qed.


Ltac event_steps :=
  repeat first
    [ apply adds_only_bind; [|intros ?]
    | apply adds_only_await; reflexivity
    | apply adds_only_ret
    | apply adds_only_lift
    | apply adds_only_raise
    | apply adds_only_emit; reflexivity ].

Lemma fetch_teamio_calls :
  adds_only (not_call_of InWork) (fetch_teamio_credits TEAMIO_PROFILE_DIR env).
Proof.
  unfold fetch_teamio_credits, print.
  destruct (negb (teamio_profile_exists env)); event_steps.
Qed.

Lemma fetch_inwork_calls :
  adds_only (not_call_of Teamio) (fetch_inwork_credits env).
Proof.
  unfold fetch_inwork_credits, print. event_steps.
Qed.

Lemma attempt_adds_only (ok : event -> bool) (name : str)
      (fetch : M PortalCredits) (report : exn -> str) (portals : list str)
      (results : list PortalCredits) :
  (requested name portals = true -> adds_only ok fetch) ->
  (forall e, ok (Print (report e)) = true) ->
  adds_only ok (attempt name fetch report portals results).
Proof.
  intros Hfetch Hreport. unfold attempt.
  destruct (requested name portals); [|apply adds_only_ret].
  apply adds_only_try.
  - apply adds_only_bind; [apply Hfetch; reflexivity | intros; apply adds_only_ret].
  - intros e. apply adds_only_bind; [|intros; apply adds_only_ret].
    apply adds_only_emit, Hreport.
Qed.

Lemma gather_calls (portals : list str) :
  adds_only
    (fun ev =>
       (requested (py "teamio") portals || not_call_of Teamio ev)
       && (requested (py "inwork") portals || not_call_of InWork ev))
    (gather TEAMIO_PROFILE_DIR env portals).
Proof.
  unfold gather. apply adds_only_bind; [|intros results];
    apply attempt_adds_only.
  - intros Hreq. apply (adds_only_weaken (not_call_of InWork));
      [|apply fetch_teamio_calls].
    intros ev Hev. rewrite Hreq, Hev, orb_true_r. reflexivity.
  - intros e. rewrite !orb_true_r. reflexivity.
  - intros Hreq. apply (adds_only_weaken (not_call_of Teamio));
      [|apply fetch_inwork_calls].
    intros ev Hev. rewrite Hreq, Hev, orb_true_r. reflexivity.
  - intros e. rewrite !orb_true_r. reflexivity.
Qed.

Lemma no_calls_among (p : portal_id) (evs : list event) :
  forallb (not_call_of p) evs = true -> existsb (is_call_of p) evs = false.
Proof.
  induction evs as [|ev evs IH]; simpl; [reflexivity|].
  intros E. apply andb_true_iff in E. destruct E as [Hev Hevs].
  unfold not_call_of in Hev. apply negb_true_iff in Hev.
  rewrite Hev. apply IH, Hevs.
Qed.

Lemma forallb_weaken {A} (f g : A -> bool) (l : list A) :
  (forall x, f x = true -> g x = true) ->
  forallb f l = true -> forallb g l = true.
Proof.
  intros Hfg Hl. apply forallb_forall. intros x Hx.
  apply Hfg. rewrite forallb_forall in Hl. apply Hl, Hx.
Qed.

(** X12.  [collect] opens a session only for a portal that is in the
    list: when "teamio" is not requested no call goes to the Teamio
    session, and likewise for InWork; names it does not know are ignored,
    so a list with neither name only prints the nothing-to-save line and
    changes no file. *)
Theorem collect_attempts_only_requested (portals : list str) (w w' : World)
        (r : result unit) :
  collect CREDITS_FILE TEAMIO_PROFILE_DIR env portals w = (w', r) ->
  exists evs,
    trace w' = trace w ++ evs
    /\ (requested (py "teamio") portals = false ->
        existsb (is_call_of Teamio) evs = false)
    /\ (requested (py "inwork") portals = false ->
        existsb (is_call_of InWork) evs = false)
    /\ (requested (py "teamio") portals = false ->
        requested (py "inwork") portals = false ->
        evs = [Print nothing_to_save] /\ r = Ok tt /\ files w' = files w).
Proof.
  intros Hrun.
  destruct (collect_cases _ _ _ _ Hrun) as (w1 & rg & Hg & Hcase).
  destruct (gather_calls portals _ _ _ Hg) as (Hf & evs1 & Ht1 & Hq1).
  assert (Htail : exists tail,
             trace w' = trace w1 ++ tail
             /\ (forall p, existsb (is_call_of p) tail = false)
             /\ (rg = Ok [] -> tail = [Print nothing_to_save] /\ r = Ok tt
                               /\ files w' = files w1)).
  { destruct Hcase as [(e & -> & -> & ->)
                      | [(-> & -> & ->)
                        | [(results & e & -> & Hne & _ & -> & ->)
                          | (results & prior' & -> & Hne & _ & _ & -> & ->)]]].
    - exists []. rewrite app_nil_r. split; [reflexivity|].
      split; [intros p; reflexivity | discriminate].
    - exists [Print nothing_to_save]. split; [reflexivity|].
      split; [intros p; reflexivity | auto].
    - exists []. rewrite app_nil_r. split; [reflexivity|].
      split; [intros p; reflexivity|]. intros E. inversion E. congruence.
    - eexists. split; [reflexivity|].
      split; [intros p; destruct p; reflexivity|].
      intros E. inversion E. congruence. }
  destruct Htail as (tail & Ht & Hcalls & Hnone).
  exists (evs1 ++ tail).
  split; [rewrite Ht, Ht1, app_assoc; reflexivity|].
  split.
  { intros Hreq. rewrite existsb_app, Hcalls, orb_false_r.
    apply no_calls_among. revert Hq1. apply forallb_weaken.
    intros ev Hev. rewrite Hreq in Hev. apply andb_true_iff in Hev. apply Hev. }
  split.
  { intros Hreq. rewrite existsb_app, Hcalls, orb_false_r.
    apply no_calls_among. revert Hq1. apply forallb_weaken.
    intros ev Hev. rewrite Hreq in Hev. apply andb_true_iff in Hev. apply Hev. }
  intros Hrt Hri.
  assert (Hg0 : gather TEAMIO_PROFILE_DIR env portals w = (w, Ok [])).
  { unfold gather, bind, attempt. rewrite Hrt, Hri. reflexivity. }
  rewrite Hg0 in Hg. inversion Hg; subst w1 rg.
  destruct (Hnone eq_refl) as (-> & -> & Hfw).
  assert (evs1 = []).
  { apply (app_inv_head (trace w)). rewrite app_nil_r. symmetry. exact Ht1. }
  subst evs1. auto.
Qed.

(** X13.  When both portals are requested, in whatever order the list
    names them, and both drivers return a reading, [collect] writes the log
    once, with the Teamio record before the InWork record after the prior
    entries, prints that two records were saved and prints no failure. *)
Theorem collect_saves_teamio_first (portals : list str) (w w1 w2 : World)
        (rt ri : PortalCredits) (prior : list json) :
  requested (py "teamio") portals = true ->
  requested (py "inwork") portals = true ->
  write_fault env = None ->
  load_entries CREDITS_FILE w = (w, Ok prior) ->
  fetch_teamio_credits TEAMIO_PROFILE_DIR env w = (w1, Ok rt) ->
  fetch_inwork_credits env w1 = (w2, Ok ri) ->
  let text := json_dump (JList (prior ++ [entry_of rt; entry_of ri])) in
  collect CREDITS_FILE TEAMIO_PROFILE_DIR env portals w
  = (MkWorld (fun p => if str_eqb p CREDITS_FILE then Some text else files w p)
             (trace w2 ++ [Write CREDITS_FILE text; Print (saved_message 2)]),
     Ok tt)
  /\ exists evs,
      trace w2 = trace w ++ evs /\ filter is_failure_report evs = [].
Proof.
  intros Ht Hi Hw Hload Hft Hfi text.
  destruct (fetch_teamio_events TEAMIO_PROFILE_DIR env _ _ _ Hft)
    as (Hf1 & evs1 & Ht1 & Hq1).
  destruct (fetch_inwork_events env _ _ _ Hfi) as (Hf2 & evs2 & Ht2 & Hq2).
  destruct (session_events_filtered _ Hq1) as [Hr1 _].
  destruct (session_events_filtered _ Hq2) as [Hr2 _].
  assert (Hload2 : load_entries CREDITS_FILE w2 = (w2, Ok prior)).
  { apply (load_entries_same_files _ w); [congruence | exact Hload]. }
  split.
  - unfold collect, bind.
    rewrite (attempt_ok _ _ _ _ _ _ _ _ Ht Hft). cbn [app].
    rewrite (attempt_ok _ _ _ _ _ _ _ _ Hi Hfi). cbn [app].
    rewrite (save_entries_run env [rt; ri] CREDITS_FILE w2 prior Hload2 Hw).
    unfold print, emit. cbn [files trace map List.length].
    rewrite Hf2, Hf1, <- app_assoc. reflexivity.
  - exists (evs1 ++ evs2). split.
    + rewrite Ht2, Ht1, app_assoc. reflexivity.
    + rewrite filter_app, Hr1, Hr2. reflexivity.
Qed.

(** X14.  What [except Exception] does not catch stops the run.  When
    the Teamio driver raises a [KeyboardInterrupt] or a cancellation,
    [collect] raises it without going on to InWork; when the InWork driver
    raises it after Teamio has returned a reading, [collect] raises it
    without writing, so that reading is not saved and every file is as
    before.  [main] turns a [KeyboardInterrupt] out of [collect] into the
    interrupted line and a normal return, with exit status 0. *)
Theorem interrupt_saves_nothing (portals : list str) (w w1 w2 : World)
        (rt : PortalCredits) (e : exn) :
  requested (py "teamio") portals = true ->
  is_Exception e = false ->
  (fetch_teamio_credits TEAMIO_PROFILE_DIR env w = (w1, Raise e) ->
   collect CREDITS_FILE TEAMIO_PROFILE_DIR env portals w = (w1, Raise e))
  /\ (requested (py "inwork") portals = true ->
      fetch_teamio_credits TEAMIO_PROFILE_DIR env w = (w1, Ok rt) ->
      fetch_inwork_credits env w1 = (w2, Raise e) ->
      collect CREDITS_FILE TEAMIO_PROFILE_DIR env portals w = (w2, Raise e)
      /\ files w2 = files w)
  /\ (forall argv w0 w',
         parse_args argv w0 = (w, Ok portals) ->
         collect CREDITS_FILE TEAMIO_PROFILE_DIR env portals w
         = (w', Raise KeyboardInterrupt) ->
         main CREDITS_FILE TEAMIO_PROFILE_DIR env argv w0
         = (MkWorld (files w') (trace w' ++ [Print interrupted_message]), Ok tt)
         /\ exit_status
              (snd (main CREDITS_FILE TEAMIO_PROFILE_DIR env argv w0)) = 0%Z).
Proof.
  intros Ht He. split; [|split].
  - intros Hft. unfold collect, bind, attempt, try_except, bind.
    rewrite Ht, Hft, He. reflexivity.
  - intros Hi Hft Hfi.
    destruct (fetch_teamio_events TEAMIO_PROFILE_DIR env _ _ _ Hft) as (Hf1 & _).
    destruct (fetch_inwork_events env _ _ _ Hfi) as (Hf2 & _).
    split; [|congruence].
    unfold collect, bind.
    rewrite (attempt_ok _ _ _ _ _ _ _ _ Ht Hft). cbn [app].
    unfold attempt, try_except, bind. rewrite Hi, Hfi, He. reflexivity.
  - intros argv w0 w' Hparse Hrun.
    assert (Hm : main CREDITS_FILE TEAMIO_PROFILE_DIR env argv w0
                 = (MkWorld (files w') (trace w' ++ [Print interrupted_message]),
                    Ok tt)).
    { unfold main, bind. rewrite Hparse, Hrun. reflexivity. }
    split; [exact Hm|]. rewrite Hm. reflexivity.
Qed.

End CollectFacts.

(** ** The bootstrap script *)

Section BootstrapFacts.
Context `{UnicodeData} `{JsonCodec}.
Variable user_data_dir : str.
Variable benv : BootEnv.

Ltac boot_faults H :=
  repeat match type of H with
    | context [fault ?ss ?s] =>
        let E := fresh "Ef" in
        destruct (fault ss s) eqn:E; cbn -[py app str_eqb] in H
    end.

Ltac boot_trace H :=
  inversion H; subst; clear H;
  eexists; split;
  [ cbn [trace world]; rewrite <- ?app_assoc; reflexivity | ].

Lemma bootstrap_runs (d d' : Disk) (r : result unit) :
  bootstrap_login user_data_dir benv d = (d', r) ->
  exists evs,
    trace (world d') = trace (world d) ++ evs
    /\ List.length (filter is_close evs)
       = match mkdir_fault benv,
               fault (boot_session benv) AtPlaywright,
               fault (boot_session benv) AtLaunch with
         | None, None, None => 1%nat
         | _, _, _ => 0%nat
         end
    /\ List.length (filter (is_line session_saved) evs)
       = match r with
         | Ok _ => 1%nat
         | Raise _ => 0%nat
         end
    /\ files (world d') = files (world d)
    /\ existsb is_write evs = false.
Proof.
  intros Hrun.
  unfold bootstrap_login, bindB, try_finally, in_world, mkdir, await, print, emit
    in Hrun.
  destruct (mkdir_fault benv) as [e|]; cbn -[py app str_eqb] in Hrun.
  - inversion Hrun; subst. exists []. rewrite app_nil_r.
    repeat (split; [reflexivity|]). reflexivity.
  - boot_faults Hrun; boot_trace Hrun;
      repeat (split; [reflexivity|]); reflexivity.
Qed.

(** X15.  The bootstrap closes the browser it launched exactly once,
    whatever happens between the launch and the end of the [try] (a failed
    navigation, an interrupt at the prompt), and calls [close] on nothing
    when the directory could not be made or the browser did not start; it
    never writes a file. *)
Theorem bootstrap_closes_what_it_launched (d d' : Disk) (r : result unit) :
  bootstrap_login user_data_dir benv d = (d', r) ->
  exists evs,
    trace (world d') = trace (world d) ++ evs
    /\ List.length (filter is_close evs)
       = match mkdir_fault benv,
               fault (boot_session benv) AtPlaywright,
               fault (boot_session benv) AtLaunch with
         | None, None, None => 1%nat
         | _, _, _ => 0%nat
         end
    /\ existsb is_write evs = false
    /\ files (world d') = files (world d).
Proof.
  intros Hrun.
  destruct (bootstrap_runs d d' r Hrun) as (evs & Ht & Hc & _ & Hf & Hw).
  exists evs. auto.
Qed.

(** X16.  The bootstrap prints its "Session saved" line exactly when it
    returns normally, that is when the directory was made and every call
    of the session, [close] included, succeeded; a run that raises does not
    print it. *)
Theorem bootstrap_saved_line_only_on_success (d d' : Disk) (r : result unit) :
  bootstrap_login user_data_dir benv d = (d', r) ->
  (exists evs,
      trace (world d') = trace (world d) ++ evs
      /\ List.length (filter (is_line session_saved) evs)
         = match r with
           | Ok _ => 1%nat
           | Raise _ => 0%nat
           end)
  /\ (r = Ok tt <->
      mkdir_fault benv = None
      /\ forall s, In s [AtPlaywright; AtLaunch; AtNewPage; AtGoto; AtInput; AtClose] ->
                   fault (boot_session benv) s = None).
Proof.
  intros Hrun. split.
  - destruct (bootstrap_runs d d' r Hrun) as (evs & Ht & _ & Hs & _).
    exists evs. auto.
  - unfold bootstrap_login, bindB, try_finally, in_world, mkdir, await, print, emit
      in Hrun.
    split.
    + intros ->.
      destruct (mkdir_fault benv) as [e|]; cbn -[py app str_eqb] in Hrun;
        [discriminate|].
      boot_faults Hrun; try discriminate.
      split; [reflexivity|].
      intros s Hs. cbn [In] in Hs.
      repeat (destruct Hs as [<- | Hs]; [assumption|]). destruct Hs.
    + intros [Hm Hs]. rewrite Hm in Hrun.
      rewrite !Hs in Hrun by (cbn [In]; auto 10).
      cbn -[py app str_eqb] in Hrun. inversion Hrun; subst. reflexivity.
Qed.

Variable env : Env.

Ltac event_steps :=
  repeat first
    [ apply adds_only_bind; [|intros ?]
    | apply adds_only_await; reflexivity
    | apply adds_only_ret
    | apply adds_only_lift
    | apply adds_only_raise
    | apply adds_only_emit; reflexivity ].

(** X17.  The bootstrap makes the profile directory before anything else:
    once [mkdir] has succeeded the directory exists however the rest of the
    run ends, and no directory disappears.  The Teamio driver run on that
    directory then passes its check and goes on to the browser; without the
    directory it raises its missing-profile error before any call. *)
Theorem bootstrap_makes_profile (d d' : Disk) (r : result unit) (w : World) :
  bootstrap_login user_data_dir benv d = (d', r) ->
  mkdir_fault benv = None ->
  dirs d' user_data_dir = true
  /\ (forall p, dirs d p = true -> dirs d' p = true)
  /\ (teamio_profile_exists env = dirs d' user_data_dir ->
      exists w' r' evs,
        fetch_teamio_credits user_data_dir env w = (w', r')
        /\ trace w' = trace w ++ Call Teamio AtPlaywright :: evs)
  /\ (teamio_profile_exists env = dirs d user_data_dir ->
      dirs d user_data_dir = false ->
      fetch_teamio_credits user_data_dir env w
      = (w, Raise (teamio_profile_missing user_data_dir))).
Proof.
  intros Hrun Hm.
  assert (Hdirs : dirs d' = fun p => str_eqb p user_data_dir || dirs d p).
  { unfold bootstrap_login, bindB, try_finally, in_world, mkdir, await, print, emit
      in Hrun.
    rewrite Hm in Hrun. cbn -[py app str_eqb] in Hrun.
    boot_faults Hrun; inversion Hrun; subst; reflexivity. }
  assert (Hexists : dirs d' user_data_dir = true)
    by (rewrite Hdirs, str_eqb_refl; reflexivity).
  split; [exact Hexists|].
  split; [intros p Hp; rewrite Hdirs, Hp; apply orb_true_r|].
  split.
  - intros Hflag. rewrite Hexists in Hflag.
    destruct (fetch_teamio_credits user_data_dir env w) as [w' r'] eqn:E.
    exists w', r'.
    unfold fetch_teamio_credits in E. rewrite Hflag in E. cbn [negb] in E.
    unfold bind at 1 in E. unfold await at 1 in E.
    destruct (fault (teamio_session env) AtPlaywright) as [e|].
    + inversion E; subst. exists []. split; reflexivity.
    + match type of E with
      | ?m ?w1 = _ =>
          assert (Ha : adds_only any_event m) by (unfold print; event_steps)
      end.
      destruct (Ha _ _ _ E) as (_ & evs & Ht & _).
      exists evs. split; [reflexivity|].
      rewrite Ht. cbn [trace]. rewrite <- app_assoc. reflexivity.
  - intros Hflag Hno. rewrite Hno in Hflag.
    unfold fetch_teamio_credits. rewrite Hflag. reflexivity.
Qed.

End BootstrapFacts.

(** ** Checking a sample text by computation *)

Lemma all_true_check {A} (f : A -> bool) (l : list A) :
  forallb f l = true -> Forall (fun x => f x = true) l.
Proof.
  intros E. apply Forall_forall. intros x Hx.
  rewrite forallb_forall in E. apply E, Hx.
Qed.

Lemma all_false_check {A} (f : A -> bool) (l : list A) :
  forallb (fun x => negb (f x)) l = true -> Forall (fun x => f x = false) l.
Proof.
  intros E. apply Forall_forall. intros x Hx.
  rewrite forallb_forall in E. apply negb_true_iff, E, Hx.
Qed.

(** ** The further properties at sample runs *)




Lemma no_digit_no_value_sample :
  let env := sample_env None (session_showing []) (session_showing []) in
  extract_teamio_credits_from_page env (page_showing (py "Přihlášení: e-mail, heslo"))
  = Raise teamio_not_found
  /\ extract_inwork_credits_from_page (page_showing (py "Přihlášení: e-mail, heslo"))
     = Raise inwork_not_found.
Proof.
  intros env.
  destruct (no_digit_no_value env (page_showing (py "Přihlášení: e-mail, heslo"))
              (py "Přihlášení: e-mail, heslo") eq_refl)
    as [Ht Hi].
  - first [ apply all_false_check | apply all_true_check ]; vm_compute; reflexivity.
  - split; [apply Ht; reflexivity | exact Hi].
Defined.


Lemma locator_non_decimal_falls_back_sample :
  let env := sample_env (Some (py ".credits")) (session_showing [])
                        (session_showing []) in
  @extract_teamio_credits_from_page superscript_data
    env (page_with_element (py "12 m²") (py "37 credits"))
  = Ok 37%Z.
Proof.
  intros env.
  rewrite (@locator_non_decimal_falls_back superscript_data env
             (page_with_element (py "12 m²") (py "37 credits"))
             (py ".credits") (py "12 m²") eq_refl eq_refl eq_refl).
  reflexivity.
Defined.

Lemma locator_interrupt_propagates_sample :
  let env := sample_env (Some (py ".credits")) (session_showing [])
                        (session_showing []) in
  extract_teamio_credits_from_page
    env (MkPage (fun _ => Raise KeyboardInterrupt) (Ok (py "37 credits")))
  = Raise KeyboardInterrupt
  /\ extract_teamio_credits_from_page
       (sample_env (Some []) (session_showing []) (session_showing []))
       (page_with_element (py "12") (py "37 credits"))
     = Ok 37%Z.
Proof.
  intros env. split.
  - apply (proj1 (locator_interrupt_propagates env
                    (MkPage (fun _ => Raise KeyboardInterrupt) (Ok (py "37 credits"))))
             (py ".credits") KeyboardInterrupt);
      reflexivity.
  - rewrite (proj2 (locator_interrupt_propagates
                      (sample_env (Some []) (session_showing []) (session_showing []))
                      (page_with_element (py "12") (py "37 credits"))));
      [reflexivity | right; reflexivity].
Defined.


Lemma fetch_reading_shape_sample :
  let env := sample_env None
                        (session_showing (py "Kredity" ++ [10] ++ teamio_sample))
                        (session_showing inwork_sample) in
  snd (fetch_teamio_credits sample_profile_dir env empty_disk) = Ok teamio_reading
  /\ snd (fetch_inwork_credits env empty_disk) = Ok inwork_reading
  /\ (0 <= credits teamio_reading)%Z
  /\ (0 <= credits inwork_reading)%Z.
Proof.
  intros env.
  split; [vm_compute; reflexivity|]. split; [vm_compute; reflexivity|].
  split.
  - apply (proj1 (fetch_reading_shape sample_profile_dir env empty_disk
                    (fst (fetch_teamio_credits sample_profile_dir env empty_disk))
                    teamio_reading)).
    vm_compute; reflexivity.
  - apply (proj2 (fetch_reading_shape sample_profile_dir env empty_disk
                    (fst (fetch_inwork_credits env empty_disk))
                    inwork_reading)).
    vm_compute; reflexivity.
Defined.

Lemma fetch_closes_only_on_success_sample :
  let env := sample_env None
                        (session_showing (py "Přihlášení"))
                        (session_showing inwork_sample) in
  (exists evs,
      trace (fst (fetch_teamio_credits sample_profile_dir env empty_disk)) = evs
      /\ List.length (filter is_close evs) = 0%nat)
  /\ (exists evs,
         trace (fst (fetch_inwork_credits env empty_disk)) = evs
         /\ List.length (filter is_close evs) = 1%nat).
Proof.
  intros env. split.
  - destruct (proj1 (fetch_closes_only_on_success sample_profile_dir env empty_disk
                       (fst (fetch_teamio_credits sample_profile_dir env empty_disk)))
                (Raise teamio_not_found))
      as (evs & Ht & Hc).
    + vm_compute; reflexivity.
    + exists evs. split; [exact Ht | apply Hc; reflexivity].
  - destruct (proj2 (fetch_closes_only_on_success sample_profile_dir env empty_disk
                       (fst (fetch_inwork_credits env empty_disk)))
                (Ok inwork_reading))
      as (evs & Ht & Hc).
    + vm_compute; reflexivity.
    + exists evs. split; [exact Ht | exact Hc].
Defined.


Lemma collect_attempts_only_requested_sample :
  let env := sample_env None
                        (session_showing teamio_sample)
                        (session_showing inwork_sample) in
  (exists evs,
      trace (fst (collect sample_credits_file sample_profile_dir env
                          [py "inwork"] empty_disk)) = evs
      /\ existsb (is_call_of Teamio) evs = false)
  /\ snd (collect sample_credits_file sample_profile_dir env
                  [py "linkedin"; py "Teamio"] empty_disk)
     = Ok tt.
Proof.
  intros env. split.
  - destruct (collect_attempts_only_requested sample_credits_file
                sample_profile_dir env [py "inwork"] empty_disk
                (fst (collect sample_credits_file sample_profile_dir env
                              [py "inwork"] empty_disk))
                (Ok tt))
      as (evs & Ht & Hnt & _).
    + vm_compute; reflexivity.
    + exists evs. split; [exact Ht | apply Hnt; reflexivity].
  - destruct (collect_attempts_only_requested sample_credits_file
                sample_profile_dir env [py "linkedin"; py "Teamio"] empty_disk
                (fst (collect sample_credits_file sample_profile_dir env
                              [py "linkedin"; py "Teamio"] empty_disk))
                (snd (collect sample_credits_file sample_profile_dir env
                              [py "linkedin"; py "Teamio"] empty_disk)))
      as (evs & Ht & _ & _ & Hnone).
    + vm_compute; reflexivity.
    + destruct (Hnone eq_refl eq_refl) as (_ & Hr & _). exact Hr.
Defined.

Lemma collect_saves_teamio_first_sample :
  let env := sample_env None
                        (session_showing teamio_sample)
                        (session_showing inwork_sample) in
  load_entries sample_credits_file
    (fst (collect sample_credits_file sample_profile_dir env
                  [py "inwork"; py "teamio"] empty_disk))
  = (fst (collect sample_credits_file sample_profile_dir env
                  [py "inwork"; py "teamio"] empty_disk),
     Ok [entry_of teamio_reading; entry_of inwork_reading]).
Proof.
  intros env.
  pose (w1 := fst (fetch_teamio_credits sample_profile_dir env empty_disk)).
  pose (w2 := fst (fetch_inwork_credits env w1)).
  destruct (collect_saves_teamio_first sample_credits_file sample_profile_dir env
              [py "inwork"; py "teamio"] empty_disk w1 w2
              teamio_reading inwork_reading [])
    as (Hrun & _).
  1-6: vm_compute; reflexivity.
  cbv zeta in Hrun. rewrite Hrun. cbn [fst app].
  apply load_after_write.
Defined.

Lemma interrupt_saves_nothing_sample :
  let env := sample_env None
                        (session_showing teamio_sample)
                        (session_interrupted inwork_sample) in
  files (fst (collect sample_credits_file sample_profile_dir env
                      [py "teamio"; py "inwork"] empty_disk))
        sample_credits_file
  = None
  /\ snd (main sample_credits_file sample_profile_dir env [script_name] empty_disk)
     = Ok tt.
Proof.
  intros env.
  pose (w1 := fst (fetch_teamio_credits sample_profile_dir env empty_disk)).
  pose (w2 := fst (fetch_inwork_credits env w1)).
  destruct (interrupt_saves_nothing sample_credits_file sample_profile_dir env
              [py "teamio"; py "inwork"] empty_disk w1 w2 teamio_reading
              KeyboardInterrupt eq_refl eq_refl)
    as (_ & Hinwork & Hmain).
  destruct Hinwork as (Hrun & Hfiles).
  1-3: vm_compute; reflexivity.
  split.
  - rewrite Hrun. cbn [fst]. rewrite Hfiles. reflexivity.
  - destruct (Hmain [script_name] empty_disk w2) as (Hm & _).
    + vm_compute; reflexivity.
    + exact Hrun.
    + rewrite Hm. reflexivity.
Defined.

Lemma bootstrap_closes_what_it_launched_sample :
  let benv := sample_boot_env (session_interrupted []) in
  exists evs,
    trace (world (fst (bootstrap_login sample_profile_dir benv empty_machine))) = evs
    /\ List.length (filter is_close evs) = 1%nat
    /\ snd (bootstrap_login sample_profile_dir benv empty_machine)
       = Raise KeyboardInterrupt.
Proof.
  intros benv.
  destruct (bootstrap_closes_what_it_launched sample_profile_dir benv empty_machine
              (fst (bootstrap_login sample_profile_dir benv empty_machine))
              (Raise KeyboardInterrupt))
    as (evs & Ht & Hc & _).
  - vm_compute; reflexivity.
  - exists evs. split; [exact Ht|]. split; [exact Hc | vm_compute; reflexivity].
Defined.

Lemma bootstrap_saved_line_only_on_success_sample :
  let benv := sample_boot_env (session_showing []) in
  snd (bootstrap_login sample_profile_dir benv empty_machine) = Ok tt
  /\ exists evs,
      trace (world (fst (bootstrap_login sample_profile_dir benv empty_machine))) = evs
      /\ List.length (filter (is_line session_saved) evs) = 1%nat.
Proof.
  intros benv.
  destruct (bootstrap_saved_line_only_on_success sample_profile_dir benv
              empty_machine
              (fst (bootstrap_login sample_profile_dir benv empty_machine))
              (Ok tt))
    as ((evs & Ht & Hs) & Hiff).
  - vm_compute; reflexivity.
  - split; [vm_compute; reflexivity|]. exists evs. split; [exact Ht | exact Hs].
Defined.

Lemma bootstrap_makes_profile_sample :
  let benv := sample_boot_env session_not_launching in
  let env := sample_env None (session_showing teamio_sample) (session_showing []) in
  dirs (fst (bootstrap_login sample_profile_dir benv empty_machine))
       sample_profile_dir = true
  /\ exists w' r' evs,
      fetch_teamio_credits sample_profile_dir env empty_disk = (w', r')
      /\ trace w' = Call Teamio AtPlaywright :: evs.
Proof.
  intros benv env.
  destruct (bootstrap_makes_profile sample_profile_dir benv env empty_machine
              (fst (bootstrap_login sample_profile_dir benv empty_machine))
              (Raise timeout_error) empty_disk)
    as (Hdir & _ & Hfetch & _).
  - vm_compute; reflexivity.
  - reflexivity.
  - split; [exact Hdir|]. apply Hfetch. vm_compute; reflexivity.
Defined.

(** ** The unit-before-number pattern *)

Section ReversePattern.
Context `{U : UnicodeData} `{L : @UnicodeLaws U}.

(** The end of the pattern, [\s*(\d+)], reads the number after any white
    space. *)
Lemma number_after_blank (ws ds post : str) (p : option N) (g : option str) :
  ascii_blank ws ->
  ascii_digits ds -> ds <> [] ->
  stops Digit post ->
  rmatch (Seq (Star Space) (Group (Plus Digit))) (fun s => Some (grp s))
         (MState p (ws ++ ds ++ post) g)
  = Some (Some ds).
Proof.
  intros Hws Hds Hne Hpost.
  destruct ds as [|d ds]; [congruence|].
  rewrite rmatch_seq, rmatch_star.
  apply star_from_greedy.
  - apply blank_all_space, Hws.
  - apply (stops_space_digits (d :: ds) post Hds Hne).
  - rewrite rmatch_group.
    apply plus_greedy; [apply digits_all_digit, Hds | exact Hpost |].
    cbn [prev rest grp]. rewrite captured_app. reflexivity.
Qed.

Lemma chr_cases {A} (c : cclass) (k : mstate -> option A)
      (p : option N) (x : N) (xs : str) (g : option str) :
  rmatch (Chr c) k (MState p (x :: xs) g) = None
  \/ rmatch (Chr c) k (MState p (x :: xs) g) = k (MState (Some x) xs g).
Proof.
  simpl. destruct (cmatch c x); [right | left]; reflexivity.
Qed.

Lemma alt_result {A} (a b : regex) (k : mstate -> option A) (s : mstate) (v : A) :
  rmatch a k s = None \/ rmatch a k s = Some v ->
  rmatch b k s = Some v ->
  rmatch (Alt a b) k s = Some v.
Proof.
  intros [E | E] Hb; simpl; rewrite E; [exact Hb | reflexivity].
Qed.

Lemma opt_result {A} (a : regex) (k : mstate -> option A) (s : mstate) (v : A) :
  rmatch a k s = None \/ rmatch a k s = Some v ->
  k s = Some v ->
  rmatch (Opt a) k s = Some v.
Proof.
  intros [E | E] Hk; simpl; rewrite E; [exact Hk | reflexivity].
Qed.

Section AtNumber.
Variables (ws ds post : str).
Hypothesis Hws : ascii_blank ws.
Hypothesis Hne_ws : ws <> [].
Hypothesis Hds : ascii_digits ds.
Hypothesis Hne : ds <> [].
Hypothesis Hpost : stops Digit post.

Let tail_k : mstate -> option (option str) :=
  rmatch (Seq (Star Space) (Group (Plus Digit))) (fun s => Some (grp s)).

Let bound_k : mstate -> option (option str) := rmatch WordB tail_k.

(** After the unit word and its boundary the number is read. *)
Lemma bound_after_letter (c : N) (g : option str) :
  isword c = true ->
  bound_k (MState (Some c) (ws ++ ds ++ post) g) = Some (Some ds).
Proof.
  intros Hc. unfold bound_k. rewrite rmatch_wordb.
  - apply number_after_blank; assumption.
  - apply boundary_after_word; [exact Hc|].
    destruct Hws as [|x xs Hx Hxs]; [congruence|].
    cbn. apply (blank_char x Hx).
Qed.

(** One character into the white space, the boundary either fails or the
    number is read all the same. *)
Lemma bound_in_blank (p : option N) (ws' : str) (g : option str) :
  ascii_blank ws' ->
  bound_k (MState p (ws' ++ ds ++ post) g) = None
  \/ bound_k (MState p (ws' ++ ds ++ post) g) = Some (Some ds).
Proof.
  intros Hws'. unfold bound_k. cbn [rmatch].
  destruct (at_boundary (MState p (ws' ++ ds ++ post) g));
    [right | left; reflexivity].
  apply number_after_blank; assumption.
Qed.

Lemma chr_in_blank (c : cclass) (p : option N) (g : option str) :
  rmatch (Chr c) bound_k (MState p (ws ++ ds ++ post) g) = None
  \/ rmatch (Chr c) bound_k (MState p (ws ++ ds ++ post) g) = Some (Some ds).
Proof.
  destruct Hws as [|x xs Hx Hxs]; [congruence|].
  cbn [app].
  destruct (chr_cases c bound_k p x (xs ++ ds ++ post) g) as [E | E];
    rewrite E; [left; reflexivity|].
  apply bound_in_blank, Hxs.
Qed.

Lemma suffixes_in_blank (p : option N) (g : option str) :
  rmatch (Alt (Chr (Lit 367)) (Chr (Lit 121))) bound_k
         (MState p (ws ++ ds ++ post) g) = None
  \/ rmatch (Alt (Chr (Lit 367)) (Chr (Lit 121))) bound_k
            (MState p (ws ++ ds ++ post) g) = Some (Some ds).
Proof.
  cbn [rmatch].
  destruct (chr_in_blank (Lit 367) p g) as [E | E]; cbn [rmatch] in E; rewrite E;
    [|right; reflexivity].
  apply (chr_in_blank (Lit 121) p g).
Qed.

(** The stem "kredit" or "credit" at the white space. *)
Lemma stem_at_blank (a : regex) (c : N) (g : option str) :
  isword c = true ->
  (forall p, rmatch a bound_k (MState p (ws ++ ds ++ post) g) = None
             \/ rmatch a bound_k (MState p (ws ++ ds ++ post) g) = Some (Some ds)) ->
  rmatch (Seq (Opt a) WordB) tail_k (MState (Some c) (ws ++ ds ++ post) g)
  = Some (Some ds).
Proof.
  intros Hc Ha. rewrite rmatch_seq.
  apply opt_result; [apply Ha|].
  apply bound_after_letter, Hc.
Qed.

(** The word pattern, then the number, where a unit word stands before
    white space and a number. *)
Lemma word_then_number (u : str) (p : option N) (g : option str) :
  In u unit_words ->
  rmatch word_pattern tail_k (MState p (u ++ ws ++ ds ++ post) g)
  = Some (Some ds).
Proof.
  intros Hu. unfold word_pattern.
  assert (Ht : isword 116 = true) by (apply ascii_letter_word; reflexivity).
  assert (Hy : isword 121 = true) by (apply ascii_letter_word; reflexivity).
  assert (Hs : isword 115 = true) by (apply ascii_letter_word; reflexivity).
  assert (Hu_ring : isword 367 = true)
    by (unfold isword; rewrite isalnum_u_ring; reflexivity).
  destruct Hu as [<- | [<- | [<- | [<- | [<- | []]]]]].
  - (* kredit *)
    apply rmatch_alt_left.
    rewrite rmatch_seq, rmatch_lits.
    apply stem_at_blank; [exact Ht | intros p'; apply suffixes_in_blank].
  - (* kreditů *)
    apply rmatch_alt_left.
    change (py "kreditů" ++ ws ++ ds ++ post)
      with (py "kredit" ++ (367 :: ws ++ ds ++ post)).
    rewrite rmatch_seq, rmatch_lits, rmatch_seq.
    apply rmatch_opt_taken, rmatch_alt_left.
    rewrite rmatch_chr. apply bound_after_letter, Hu_ring.
  - (* kredity *)
    apply rmatch_alt_left.
    change (py "kredity" ++ ws ++ ds ++ post)
      with (py "kredit" ++ (121 :: ws ++ ds ++ post)).
    rewrite rmatch_seq, rmatch_lits, rmatch_seq.
    apply rmatch_opt_taken, alt_result.
    + destruct (chr_cases (Lit 367) bound_k (prev_after p (py "kredit")) 121
                  (ws ++ ds ++ post) g) as [E | E];
        fold bound_k; rewrite E; [left; reflexivity | right].
      apply bound_after_letter, Hy.
    + fold bound_k. rewrite rmatch_chr. apply bound_after_letter, Hy.
  - (* credit *)
    apply alt_result.
    + change (py "kredit") with (107 :: py "redit").
      change (py "credit" ++ ws ++ ds ++ post)
        with (99 :: (py "redit" ++ ws ++ ds ++ post)).
      cbn [lits]. rewrite rmatch_seq, rmatch_seq.
      destruct (chr_cases (Lit 107)
                  (rmatch (lits (py "redit"))
                     (rmatch (Seq (Opt (Alt (Chr (Lit 367)) (Chr (Lit 121)))) WordB)
                        tail_k))
                  p 99 (py "redit" ++ ws ++ ds ++ post) g) as [E | E];
        rewrite E; [left; reflexivity | right].
      rewrite rmatch_lits.
      apply stem_at_blank; [exact Ht | intros p'; apply suffixes_in_blank].
    + rewrite rmatch_seq, rmatch_lits.
      apply stem_at_blank; [exact Ht | intros p'; apply chr_in_blank].
  - (* credits *)
    change (py "credits" ++ ws ++ ds ++ post)
      with (py "credit" ++ (115 :: ws ++ ds ++ post)).
    apply alt_result.
    + change (py "kredit") with (107 :: py "redit").
      change (py "credit" ++ 115 :: ws ++ ds ++ post)
        with (99 :: (py "redit" ++ (115 :: ws ++ ds ++ post))).
      cbn [lits]. rewrite rmatch_seq, rmatch_seq.
      destruct (chr_cases (Lit 107)
                  (rmatch (lits (py "redit"))
                     (rmatch (Seq (Opt (Alt (Chr (Lit 367)) (Chr (Lit 121)))) WordB)
                        tail_k))
                  p 99 (py "redit" ++ (115 :: ws ++ ds ++ post)) g) as [E | E];
        rewrite E; [left; reflexivity|].
      rewrite rmatch_lits, rmatch_seq.
      fold bound_k.
      set (s0 := MState (prev_after (Some 99) (py "redit"))
                        (115 :: ws ++ ds ++ post) g).
      assert (Hskip : bound_k s0 = None).
      { unfold bound_k, s0. simpl rmatch.
        unfold at_boundary. cbn [prev_after py utf8 bytes_of prev rest hd_error word_at].
        cbn. rewrite Ht, Hs. reflexivity. }
      assert (Hsuffix : forall c,
                 rmatch (Chr c) bound_k s0 = None
                 \/ rmatch (Chr c) bound_k s0 = Some (Some ds)).
      { intros c. unfold s0.
        destruct (chr_cases c bound_k (prev_after (Some 99) (py "redit")) 115
                    (ws ++ ds ++ post) g) as [E' | E'];
          rewrite E'; [left; reflexivity | right].
        apply bound_after_letter, Hs. }
      cbn [rmatch].
      destruct (Hsuffix (Lit 367)) as [E1 | E1]; cbn [rmatch] in E1; rewrite E1;
        [|right; reflexivity].
      destruct (Hsuffix (Lit 121)) as [E2 | E2]; cbn [rmatch] in E2; rewrite E2;
        [|right; reflexivity].
      left. exact Hskip.
    + rewrite rmatch_seq, rmatch_lits, rmatch_seq.
      apply rmatch_opt_taken.
      rewrite rmatch_chr. apply bound_after_letter, Hs.
Qed.

(** The unit-before-number pattern at a unit word, white space and a
    number. *)
Lemma reverse_matches_number (u : str) (p : option N) :
  In u unit_words ->
  match_here pattern_reverse p (u ++ ws ++ ds ++ post) = Some (Some ds).
Proof.
  intros Hu. unfold match_here, pattern_reverse.
  rewrite rmatch_seq. apply word_then_number, Hu.
Qed.

End AtNumber.

Variable env : Env.


End ReversePattern.

